(** * Offline-first task manager: outbox queue and sync reconciliation

    A shallow embedding of [src/services/syncService.ts],
    [src/services/taskService.ts] and the task-creation route of
    [src/routes/tasks.ts], with the properties of the sync engine stated
    over it.

    Conventions of the embedding.
    - An [async] method is a computation [M A]: it takes the program state
      and returns the settled promise ([Resolve] or [Reject]) with the
      state it leaves behind.  Side effects made before a rejection stay.
    - The two SQLite tables are lists of rows in insertion (rowid) order.
      Every SQL statement of the sources is one function over the tables,
      named after the statement.
    - What the process cannot decide on its own (identifiers, the clock,
      the remote API, storage faults, the JSON codec of the runtime) is
      read from an environment [Env]; every theorem holds for all
      environments. *)

From Stdlib Require Import ZArith String Ascii.
From stdpp Require Import base option list sorting gmap strings pretty.

Set Warnings "-register-all".
Local Open Scope string_scope.

(** ** JSON values and JavaScript errors *)

Inductive json : Type :=
| JNull
| JBool (b : bool)
| JNumber (n : Z)
| JString (s : string)
| JArray (items : list json)
| JObject (fields : list (string * json)).

(** A thrown value.  [new Error(msg)] is [Error_ msg]; an error raised by
    axios carries the flag tested by [axios.isAxiosError] and, when the
    server answered, [error.response.data.message]. *)
Record JsError := {
  message : string;
  isAxiosError : bool;
  response_data_message : option string
}.

Definition Error_ (msg : string) : JsError :=
  {| message := msg; isAxiosError := false; response_data_message := None |}.

(** [a || b] on an optional string: [undefined] and [''] are falsy. *)
Definition or_else (a : option string) (b : string) : string :=
  match a with
  | Some s => if decide (s = "") then b else s
  | None => b
  end.

(** [s.includes(needle)] *)
Definition includes (s needle : string) : bool :=
  match String.index 0 needle s with
  | Some _ => true
  | None => false
  end.

(** ** Rows of the two tables ([src/types.ts]) *)

Inductive SyncStatus := pending | synced | error.

Module Task.
Record t := {
  id : string;
  title : string;
  description : string;
  completed : bool;
  created_at : string;
  updated_at : string;
  is_deleted : bool;
  sync_status : SyncStatus;
  server_id : option string;
  last_synced_at : option string
}.
End Task.

Module SyncQueueItem.
Record t := {
  id : string;
  task_id : string;
  operation : string;
  data : string;
  created_at : string;
  retry_count : Z;
  error_message : option string;
  updated_at : option string
}.
End SyncQueueItem.

(** [Partial<Task>] as the callers of [createTask] and [updateTask] build
    it: only these three fields are ever read. *)
Record PartialTask := {
  p_title : option string;
  p_description : option string;
  p_completed : option bool
}.

(** ** The world around the services *)

(** A call of axios: [axios.post(url, body)], [axios.put(url, body)],
    [axios.delete(url)]. *)
Inductive Request :=
| POST (url : string) (body : json)
| PUT (url : string) (body : json)
| DELETE (url : string).

Inductive ConsoleEntry :=
| console_log_entry (text : string)
| console_error_entry (text : string) (err : string).

Record Tables := {
  tasks : list Task.t;
  sync_queue : list SyncQueueItem.t
}.

Record State := {
  db : Tables;
  requests : list Request;        (* calls of axios made so far *)
  console : list ConsoleEntry;    (* lines printed so far *)
  uuids : nat;                    (* identifiers drawn so far *)
  dates : nat;                    (* clock readings so far *)
  db_calls : nat                  (* statements sent to the database so far *)
}.

(** A settled promise, or a call that returned or threw. *)
Inductive Outcome (A : Type) : Type :=
| Resolve (a : A)
| Reject (e : JsError).
Arguments Resolve {A} a.
Arguments Reject {A} e.

(** - [uuidv4 k], [Date_toISOString k]: the k-th identifier drawn and the
      k-th reading of the clock;
    - [axios history r]: [None] when the call [r], made after the calls
      of [history], resolves, the error it rejects with otherwise (an
      answer of the server, a failure of the network, or a refusal of
      axios itself before anything is sent);
    - [db_fault k]: the driver error of the k-th statement, if it fails;
    - [JSON_parse], [JSON_stringify]: the codec of the runtime. *)
Record Env := {
  apiUrl : string;
  uuidv4 : nat -> string;
  Date_toISOString : nat -> string;
  axios : list Request -> Request -> option JsError;
  db_fault : nat -> option string;
  JSON_parse : string -> Outcome json;
  JSON_stringify : json -> string
}.

(** ** Promises as a state and exception monad *)

Definition M (A : Type) : Type := State -> Outcome A * State.

Definition ret {A} (a : A) : M A := fun st => (Resolve a, st).

Definition throw {A} (e : JsError) : M A := fun st => (Reject e, st).

Definition bind {A B} (m : M A) (k : A -> M B) : M B := fun st =>
  match m st with
  | (Resolve a, st') => k a st'
  | (Reject e, st') => (Reject e, st')
  end.

Definition try_catch {A} (m : M A) (handler : JsError -> M A) : M A := fun st =>
  match m st with
  | (Resolve a, st') => (Resolve a, st')
  | (Reject e, st') => handler e st'
  end.

Notation "'let*' x ':=' m 'in' k" := (bind m (fun x => k))
  (at level 10, x name, m at level 100, k at level 200).
Notation "'do' m 'then' k" := (bind m (fun _ => k))
  (at level 10, m at level 100, k at level 200).

Definition set_db (d : Tables) (st : State) : State :=
  {| db := d; requests := requests st; console := console st;
     uuids := uuids st; dates := dates st; db_calls := db_calls st |}.

Definition console_log (text : string) : M unit := fun st =>
  (Resolve tt,
   {| db := db st; requests := requests st;
      console := console st ++ [console_log_entry text];
      uuids := uuids st; dates := dates st; db_calls := db_calls st |}).

Definition console_error (text : string) (e : JsError) : M unit := fun st =>
  (Resolve tt,
   {| db := db st; requests := requests st;
      console := console st ++ [console_error_entry text (message e)];
      uuids := uuids st; dates := dates st; db_calls := db_calls st |}).

Section Services.

Variable E : Env.

Definition new_uuid : M string := fun st =>
  (Resolve (uuidv4 E (uuids st)),
   {| db := db st; requests := requests st; console := console st;
      uuids := S (uuids st); dates := dates st; db_calls := db_calls st |}).

Definition new_Date_toISOString : M string := fun st =>
  (Resolve (Date_toISOString E (dates st)),
   {| db := db st; requests := requests st; console := console st;
      uuids := uuids st; dates := S (dates st); db_calls := db_calls st |}).

(** One call of axios: the call is recorded, then axios and the remote
    side decide.  [requests] counts calls of axios, not what reaches the
    network. *)
Definition axios_call (r : Request) : M unit := fun st =>
  let st' :=
    {| db := db st; requests := requests st ++ [r]; console := console st;
       uuids := uuids st; dates := dates st; db_calls := db_calls st |} in
  match axios E (requests st) r with
  | None => (Resolve tt, st')
  | Some e => (Reject e, st')
  end.

(** Modelled from the spec: the [Database] wrapper ([src/db/database.ts])
    and its schema are not in the tree.  A statement either fails as a
    whole with the driver's error ("storage unavailable", no row touched)
    or is applied to the tables; [run] reports the number of rows it
    changed, [all] the selected rows, [get] the first of them.  The
    [sync_queue] table has the [updated_at] column written by
    [handleSyncError]. *)
Definition db_statement {A} (stmt : Tables -> A * Tables) : M A := fun st =>
  let st' :=
    {| db := db st; requests := requests st; console := console st;
       uuids := uuids st; dates := dates st; db_calls := S (db_calls st) |} in
  match db_fault E (db_calls st) with
  | Some msg => (Reject (Error_ msg), st')
  | None => let (a, d) := stmt (db st') in (Resolve a, set_db d st')
  end.

Definition db_run (stmt : Tables -> Tables * Z) : M Z :=
  db_statement (fun d => let (d', changes) := stmt d in (changes, d')).

Definition db_all {Row} (query : Tables -> list Row) : M (list Row) :=
  db_statement (fun d => (query d, d)).

Definition db_get {Row} (query : Tables -> list Row) : M (option Row) :=
  db_statement (fun d => (head (query d), d)).

End Services.

(** ** The SQL statements

    [ORDER BY created_at] compares the ISO-8601 text of the column byte by
    byte, which is [String.le].  SQL leaves the order of rows with equal
    keys open; here it is the one [merge_sort] gives, and no property
    below depends on it. *)

Import SyncQueueItem.

Definition created_asc (a b : SyncQueueItem.t) : Prop :=
  String.le (created_at a) (created_at b).

Definition created_desc (a b : SyncQueueItem.t) : Prop :=
  String.le (created_at b) (created_at a).

#[global] Instance created_asc_dec : RelDecision created_asc.
Proof. intros a b. unfold created_asc. apply _. Defined.

#[global] Instance created_desc_dec : RelDecision created_desc.
Proof. intros a b. unfold created_desc. apply _. Defined.

(** [UPDATE t SET ... WHERE P]: the rows after the statement, and the
    number of rows it changed. *)
Definition update_where {A} (P : A -> Prop) `{!forall x, Decision (P x)}
    (set : A -> A) (rows : list A) : list A :=
  (fun r => if decide (P r) then set r else r) <$> rows.

Definition changes_where {A} (P : A -> Prop) `{!forall x, Decision (P x)}
    (rows : list A) : Z :=
  Z.of_nat (length (filter P rows)).

(** [LIMIT ? OFFSET ?]: a negative limit is no limit, a negative offset is
    no offset. *)
Definition limit_offset {A} (limit offset : Z) (rows : list A) : list A :=
  let rest := drop (Z.to_nat offset) rows in
  if decide (limit < 0)%Z then rest else take (Z.to_nat limit) rest.

(** [INSERT INTO sync_queue (id, task_id, operation, data, created_at,
    retry_count, error_message) VALUES (?, ?, ?, ?, ?, ?, ?)] *)
Definition sql_insert_sync_queue (row : SyncQueueItem.t) (d : Tables)
    : Tables * Z :=
  ({| tasks := tasks d; sync_queue := sync_queue d ++ [row] |}, 1%Z).

(** [SELECT * FROM sync_queue WHERE retry_count < ? ORDER BY created_at ASC] *)
Definition sql_select_pending (maxRetries : Z) (d : Tables)
    : list SyncQueueItem.t :=
  merge_sort created_asc
    (filter (fun r => (retry_count r < maxRetries)%Z) (sync_queue d)).

(** [UPDATE tasks SET sync_status = ?, last_synced_at = ? WHERE id = ?] *)
Definition set_task_synced (status : SyncStatus) (at_ : string) (t : Task.t)
    : Task.t :=
  {| Task.id := Task.id t; Task.title := Task.title t;
     Task.description := Task.description t;
     Task.completed := Task.completed t;
     Task.created_at := Task.created_at t;
     Task.updated_at := Task.updated_at t;
     Task.is_deleted := Task.is_deleted t;
     Task.sync_status := status;
     Task.server_id := Task.server_id t;
     Task.last_synced_at := Some at_ |}.

Definition sql_update_task_synced (status : SyncStatus) (at_ : string)
    (task_id : string) (d : Tables) : Tables * Z :=
  ({| tasks := update_where (fun t => Task.id t = task_id)
                 (set_task_synced status at_) (tasks d);
      sync_queue := sync_queue d |},
   changes_where (fun t => Task.id t = task_id) (tasks d)).

(** [DELETE FROM sync_queue WHERE id = ?] *)
Definition sql_delete_sync_queue (item_id : string) (d : Tables)
    : Tables * Z :=
  ({| tasks := tasks d;
      sync_queue := filter (fun r => id r <> item_id) (sync_queue d) |},
   changes_where (fun r => id r = item_id) (sync_queue d)).

(** [UPDATE sync_queue SET retry_count = ?, error_message = ?,
    updated_at = ? WHERE id = ?] *)
Definition set_failed (count : Z) (msg at_ : string) (r : SyncQueueItem.t)
    : SyncQueueItem.t :=
  {| id := id r; task_id := task_id r; operation := operation r;
     data := data r; created_at := created_at r;
     retry_count := count; error_message := Some msg;
     updated_at := Some at_ |}.

Definition sql_update_sync_queue_failed (count : Z) (msg at_ : string)
    (item_id : string) (d : Tables) : Tables * Z :=
  ({| tasks := tasks d;
      sync_queue := update_where (fun r => id r = item_id)
                      (set_failed count msg at_) (sync_queue d) |},
   changes_where (fun r => id r = item_id) (sync_queue d)).

(** [UPDATE tasks SET sync_status = ? WHERE id = ?] *)
Definition set_task_status (status : SyncStatus) (t : Task.t) : Task.t :=
  {| Task.id := Task.id t; Task.title := Task.title t;
     Task.description := Task.description t;
     Task.completed := Task.completed t;
     Task.created_at := Task.created_at t;
     Task.updated_at := Task.updated_at t;
     Task.is_deleted := Task.is_deleted t;
     Task.sync_status := status;
     Task.server_id := Task.server_id t;
     Task.last_synced_at := Task.last_synced_at t |}.

Definition sql_update_task_status (status : SyncStatus) (task_id : string)
    (d : Tables) : Tables * Z :=
  ({| tasks := update_where (fun t => Task.id t = task_id)
                 (set_task_status status) (tasks d);
      sync_queue := sync_queue d |},
   changes_where (fun t => Task.id t = task_id) (tasks d)).

(** [SELECT * FROM sync_queue WHERE 1=1] followed, when [status] is
    truthy, by [AND error_message IS NOT NULL] for ['failed'] and by
    [AND error_message IS NULL] for every other value, then
    [ORDER BY created_at DESC LIMIT ? OFFSET ?]. *)
Definition status_clause (status : option string) (r : SyncQueueItem.t)
    : bool :=
  match status with
  | None => true
  | Some s =>
      if decide (s = "") then true
      else if decide (s = "failed")
           then bool_decide (error_message r <> None)
           else bool_decide (error_message r = None)
  end.

Definition sql_select_sync_queue (status : option string) (limit offset : Z)
    (d : Tables) : list SyncQueueItem.t :=
  limit_offset limit offset
    (merge_sort created_desc
       (filter (fun r => status_clause status r) (sync_queue d))).

(** [UPDATE sync_queue SET retry_count = 0, error_message = NULL
    WHERE retry_count >= ?] *)
Definition set_reset (r : SyncQueueItem.t) : SyncQueueItem.t :=
  {| id := id r; task_id := task_id r; operation := operation r;
     data := data r; created_at := created_at r;
     retry_count := 0; error_message := None;
     updated_at := updated_at r |}.

Definition sql_reset_all_failed (maxRetries : Z) (d : Tables) : Tables * Z :=
  ({| tasks := tasks d;
      sync_queue := update_where (fun r => (retry_count r >= maxRetries)%Z)
                      set_reset (sync_queue d) |},
   changes_where (fun r => (retry_count r >= maxRetries)%Z) (sync_queue d)).

(** [UPDATE sync_queue SET retry_count = 0, error_message = NULL
    WHERE id IN (?, ..., ?) AND retry_count >= ?] *)
Definition sql_reset_failed_in (ids : list string) (maxRetries : Z)
    (d : Tables) : Tables * Z :=
  ({| tasks := tasks d;
      sync_queue :=
        update_where (fun r => id r ∈ ids /\ (retry_count r >= maxRetries)%Z)
          set_reset (sync_queue d) |},
   changes_where (fun r => id r ∈ ids /\ (retry_count r >= maxRetries)%Z)
     (sync_queue d)).

(** [SELECT COUNT( * ) as count FROM sync_queue WHERE retry_count < ?] *)
Definition sql_count_pending (maxRetries : Z) (d : Tables) : list Z :=
  [changes_where (fun r => (retry_count r < maxRetries)%Z) (sync_queue d)].

(** [SELECT COUNT( * ) as count FROM sync_queue WHERE retry_count >= ?] *)
Definition sql_count_failed (maxRetries : Z) (d : Tables) : list Z :=
  [changes_where (fun r => (retry_count r >= maxRetries)%Z) (sync_queue d)].

(** ** SyncService ([src/services/syncService.ts]) *)

Inductive Detail :=
| DetailSuccess (taskId : string)
| DetailError (taskId : string) (error_ : string).

(** The [details] field of a pass result: [{ message }], [{ error }] or
    the object filled by the loop, keyed by intent id. *)
Inductive Details :=
| DetailsMessage (text : string)
| DetailsError (text : string)
| DetailsItems (items : gmap string Detail).

Record SyncResult := {
  success : bool;
  synced_items : Z;
  failed_items : Z;
  details : Details
}.

Record SyncQueueOptions := {
  limit : Z;
  offset : Z;
  status : option string
}.

Record RetryResult := {
  retried : Z;
  failed : Z
}.

(** The variables of [sync] that its loop assigns. *)
Record LoopVars := {
  successCount : Z;
  errorCount : Z;
  details_ : gmap string Detail
}.

Definition maxRetries : Z := 3.

Fixpoint own_property (fields : list (string * json)) (key : string)
    : option json :=
  match fields with
  | [] => None
  | (k, v) :: rest => if decide (k = key) then Some v else own_property rest key
  end.

(** [taskData.key] for the keys [title] and [description]: reading a
    property of [null] throws a [TypeError]; a string, number, boolean or
    array has no such property ([undefined], here [None]). *)
Definition get_property (v : json) (key : string) : M (option json) :=
  match v with
  | JNull =>
      throw (Error_ ("Cannot read properties of null (reading '"
                     +:+ key +:+ "')"))
  | JObject fields => ret (own_property fields key)
  | _ => ret None
  end.

(** [v === s] for a string literal [s] *)
Definition strict_eq_string (v : option json) (s : string) : bool :=
  match v with
  | Some (JString s') => bool_decide (s' = s)
  | _ => false
  end.

Section SyncService.

Variable E : Env.

Definition addToSyncQueue (taskId operation : string) (data : json)
    : M unit :=
  let* syncId := new_uuid E in
  let* now := new_Date_toISOString E in
  let serializedData := JSON_stringify E data in
  do db_run E (sql_insert_sync_queue
       {| id := syncId; task_id := taskId; operation := operation;
          data := serializedData; created_at := now;
          retry_count := 0; error_message := None; updated_at := None |})
  then ret tt.

Definition makeApiCall (operation : string) (data : json) (taskId : string)
    : M unit :=
  try_catch
    (if decide (operation = "create") then
       axios_call E (POST (apiUrl E +:+ "/tasks") data)
     else if decide (operation = "update") then
       axios_call E (PUT (apiUrl E +:+ "/tasks/" +:+ taskId) data)
     else if decide (operation = "delete") then
       axios_call E (DELETE (apiUrl E +:+ "/tasks/" +:+ taskId))
     else throw (Error_ ("Unknown operation: " +:+ operation)))
    (fun err =>
       if isAxiosError err then
         throw (Error_ ("API Error: "
                        +:+ or_else (response_data_message err) (message err)))
       else throw err).

Definition processSyncItem (item : SyncQueueItem.t) : M unit :=
  do console_log ("Processing sync item: " +:+ operation item
                  +:+ " task " +:+ task_id item) then
  if decide (operation item = "fail") then
    throw (Error_ "Forced failure for testing")
  else
  let* taskData :=
    try_catch
      (if decide (data item = "") then ret (JObject [])
       else fun st => (JSON_parse E (data item), st))
      (fun err =>
         do console_error "Failed to parse sync item data:" err then
         throw (Error_ "Malformed data in sync queue")) in
  let* triggered :=
    if includes (task_id item) "fail" then ret true
    else
      let* title := get_property taskData "title" in
      if strict_eq_string title "TEST_FAILURE" then ret true
      else
        let* description := get_property taskData "description" in
        ret (strict_eq_string description "TEST_FAILURE") in
  if (triggered : bool) then throw (Error_ "Test sync failure")
  else
  try_catch
    (do makeApiCall (operation item) taskData (task_id item) then
     let* now := new_Date_toISOString E in
     do db_run E (sql_update_task_synced synced now (task_id item)) then
     do db_run E (sql_delete_sync_queue (id item)) then
     ret tt)
    (fun err =>
       do console_error ("Failed to sync task " +:+ task_id item +:+ ":") err
       then throw err).

Definition handleSyncError (item : SyncQueueItem.t) (err : JsError)
    : M unit :=
  let newRetryCount := (retry_count item + 1)%Z in
  let* now := new_Date_toISOString E in
  do db_run E (sql_update_sync_queue_failed newRetryCount (message err) now
                 (id item)) then
  if decide (newRetryCount >= maxRetries)%Z then
    do db_run E (sql_update_task_status error (task_id item)) then ret tt
  else ret tt.

(** The [for (const item of items)] loop of [sync].  The second component
    is the error that left the loop early, caught by the outer [catch]. *)
Fixpoint sync_loop (items : list SyncQueueItem.t) (v : LoopVars)
    (st : State) : (LoopVars * option JsError) * State :=
  match items with
  | [] => ((v, None), st)
  | item :: rest =>
      match processSyncItem item st with
      | (Resolve _, st1) =>
          sync_loop rest
            {| successCount := successCount v + 1;
               errorCount := errorCount v;
               details_ := <[id item := DetailSuccess (task_id item)]>
                             (details_ v) |} st1
      | (Reject err, st1) =>
          let v1 := {| successCount := successCount v;
                       errorCount := errorCount v + 1;
                       details_ := details_ v |} in
          match handleSyncError item err st1 with
          | (Resolve _, st2) =>
              sync_loop rest
                {| successCount := successCount v1;
                   errorCount := errorCount v1;
                   details_ := <[id item := DetailError (task_id item)
                                              (message err)]>
                                 (details_ v1) |} st2
          | (Reject fatal, st2) => ((v1, Some fatal), st2)
          end
      end
  end.

Definition loop_start : LoopVars :=
  {| successCount := 0; errorCount := 0; details_ := ∅ |}.

Definition sync_failed (v : LoopVars) (fatal : JsError) (st : State)
    : SyncResult * State :=
  ({| success := false;
      synced_items := successCount v;
      failed_items := errorCount v;
      details := DetailsError (message fatal) |},
   snd (console_error "Sync process failed:" fatal st)).

Definition sync (st : State) : SyncResult * State :=
  match db_all E (sql_select_pending maxRetries) st with
  | (Reject fatal, st1) => sync_failed loop_start fatal st1
  | (Resolve items, st1) =>
      if decide (length items = 0) then
        ({| success := true; synced_items := 0; failed_items := 0;
            details := DetailsMessage "No items to sync" |}, st1)
      else
        match sync_loop items loop_start st1 with
        | ((v, None), st2) =>
            ({| success := bool_decide (errorCount v = 0%Z);
                synced_items := successCount v;
                failed_items := errorCount v;
                details := DetailsItems (details_ v) |}, st2)
        | ((v, Some fatal), st2) => sync_failed v fatal st2
        end
  end.

Definition getPendingSyncCount : M Z :=
  try_catch
    (let* result := db_get E (sql_count_pending maxRetries) in
     ret (default 0%Z result))
    (fun err =>
       do console_error "Failed to get pending sync count:" err then
       ret 0%Z).

Definition getFailedSyncCount : M Z :=
  try_catch
    (let* result := db_get E (sql_count_failed maxRetries) in
     ret (default 0%Z result))
    (fun err =>
       do console_error "Failed to get failed sync count:" err then
       ret 0%Z).

Definition getSyncQueue (options : SyncQueueOptions)
    : M (list SyncQueueItem.t) :=
  try_catch
    (db_all E (sql_select_sync_queue (status options) (limit options)
                 (offset options)))
    (fun err =>
       do console_error "Failed to get sync queue:" err then ret []).

Definition retryAllFailed : M RetryResult :=
  try_catch
    (let* changes := db_run E (sql_reset_all_failed maxRetries) in
     ret {| retried := changes; failed := 0 |})
    (fun err =>
       do console_error "Failed to retry all failed syncs:" err then
       ret {| retried := 0; failed := 0 |}).

Definition retryFailed (ids : list string) : M RetryResult :=
  try_catch
    (if decide (length ids = 0) then ret {| retried := 0; failed := 0 |}
     else
       let* changes := db_run E (sql_reset_failed_in ids maxRetries) in
       ret {| retried := changes;
              failed := Z.of_nat (length ids) - changes |})
    (fun err =>
       do console_error "Failed to retry specific syncs:" err then
       ret {| retried := 0; failed := Z.of_nat (length ids) |}).

End SyncService.

(** ** TaskService ([src/services/taskService.ts]) *)

(** [INSERT INTO tasks (...) VALUES (?, ?, ?, ?, ?, ?, ?, ?, ?, ?)] *)
Definition sql_insert_task (task : Task.t) (d : Tables) : Tables * Z :=
  ({| tasks := tasks d ++ [task]; sync_queue := sync_queue d |}, 1%Z).

(** [SELECT * FROM tasks WHERE id = ? AND is_deleted = 0] *)
Definition sql_select_task (task_id : string) (d : Tables) : list Task.t :=
  filter (fun t => Task.id t = task_id /\ Task.is_deleted t = false) (tasks d).

(** [UPDATE tasks SET title = ?, description = ?, completed = ?,
    updated_at = ?, sync_status = ? WHERE id = ?] *)
Definition set_task_fields (title description : string) (completed : bool)
    (at_ : string) (status : SyncStatus) (t : Task.t) : Task.t :=
  {| Task.id := Task.id t; Task.title := title;
     Task.description := description;
     Task.completed := completed;
     Task.created_at := Task.created_at t;
     Task.updated_at := at_;
     Task.is_deleted := Task.is_deleted t;
     Task.sync_status := status;
     Task.server_id := Task.server_id t;
     Task.last_synced_at := Task.last_synced_at t |}.

Definition sql_update_task (title description : string) (completed : bool)
    (at_ : string) (status : SyncStatus) (task_id : string) (d : Tables)
    : Tables * Z :=
  ({| tasks := update_where (fun t => Task.id t = task_id)
                 (set_task_fields title description completed at_ status)
                 (tasks d);
      sync_queue := sync_queue d |},
   changes_where (fun t => Task.id t = task_id) (tasks d)).

(** [UPDATE tasks SET is_deleted = ?, updated_at = ?, sync_status = ?
    WHERE id = ?] *)
Definition set_task_deleted (deleted : bool) (at_ : string)
    (status : SyncStatus) (t : Task.t) : Task.t :=
  {| Task.id := Task.id t; Task.title := Task.title t;
     Task.description := Task.description t;
     Task.completed := Task.completed t;
     Task.created_at := Task.created_at t;
     Task.updated_at := at_;
     Task.is_deleted := deleted;
     Task.sync_status := status;
     Task.server_id := Task.server_id t;
     Task.last_synced_at := Task.last_synced_at t |}.

Definition sql_soft_delete_task (deleted : bool) (at_ : string)
    (status : SyncStatus) (task_id : string) (d : Tables) : Tables * Z :=
  ({| tasks := update_where (fun t => Task.id t = task_id)
                 (set_task_deleted deleted at_ status) (tasks d);
      sync_queue := sync_queue d |},
   changes_where (fun t => Task.id t = task_id) (tasks d)).

Definition SyncStatus_to_string (s : SyncStatus) : string :=
  match s with
  | pending => "pending"
  | synced => "synced"
  | error => "error"
  end.

Definition nullable (o : option string) : json :=
  match o with
  | Some s => JString s
  | None => JNull
  end.

(** The [Task] object handed to [JSON.stringify]: its ten own properties
    in the order in which [createTask] and [getTask] write them. *)
Definition Task_to_json (task : Task.t) : json :=
  JObject
    [("id", JString (Task.id task));
     ("title", JString (Task.title task));
     ("description", JString (Task.description task));
     ("completed", JBool (Task.completed task));
     ("created_at", JString (Task.created_at task));
     ("updated_at", JString (Task.updated_at task));
     ("is_deleted", JBool (Task.is_deleted task));
     ("sync_status", JString (SyncStatus_to_string (Task.sync_status task)));
     ("server_id", nullable (Task.server_id task));
     ("last_synced_at", nullable (Task.last_synced_at task))].

(** ** The task-creation route ([src/routes/tasks.ts])

    The body of the request is read at the type of [Partial<Task>]. *)

Inductive ResponseBody :=
| body_task (task : Task.t)
| body_error (error_ : string).

Record Response := {
  res_status : Z;
  res_body : ResponseBody
}.

(** The truth value of an optional string: [undefined] and [''] are falsy. *)
Definition truthy (o : option string) : bool :=
  match o with
  | Some s => negb (bool_decide (s = ""))
  | None => false
  end.

Section TaskService.

Variable E : Env.

Definition getTask (id : string) : M (option Task.t) :=
  let* row := db_get E (sql_select_task id) in
  ret row.

Definition createTask (taskData : PartialTask) : M Task.t :=
  let* taskId := new_uuid E in
  let* now := new_Date_toISOString E in
  let task :=
    {| Task.id := taskId;
       Task.title := or_else (p_title taskData) "";
       Task.description := or_else (p_description taskData) "";
       Task.completed := default false (p_completed taskData);
       Task.created_at := now;
       Task.updated_at := now;
       Task.is_deleted := false;
       Task.sync_status := pending;
       Task.server_id := None;
       Task.last_synced_at := None |} in
  do db_run E (sql_insert_task task) then
  do addToSyncQueue E (Task.id task) "create" (Task_to_json task) then
  ret task.

Definition updateTask (id : string) (updates : PartialTask)
    : M (option Task.t) :=
  let* existingTask := getTask id in
  match existingTask with
  | None => ret None
  | Some existingTask =>
      let* now := new_Date_toISOString E in
      do db_run E (sql_update_task
           (default (Task.title existingTask) (p_title updates))
           (default (Task.description existingTask) (p_description updates))
           (default (Task.completed existingTask) (p_completed updates))
           now pending id) then
      let* updatedTask := getTask id in
      do match updatedTask with
         | Some updated => addToSyncQueue E id "update" (Task_to_json updated)
         | None => ret tt
         end then
      ret updatedTask
  end.

Definition deleteTask (id : string) : M bool :=
  let* existingTask := getTask id in
  match existingTask with
  | None => ret false
  | Some existingTask =>
      let* now := new_Date_toISOString E in
      do db_run E (sql_soft_delete_task true now pending id) then
      do addToSyncQueue E id "delete" (Task_to_json existingTask) then
      ret true
  end.

(** [router.post('/', ...)] of [createTaskRouter] *)
Definition createTaskRouter_post (body : PartialTask) (st : State)
    : Response * State :=
  if negb (truthy (p_title body)) then
    ({| res_status := 400; res_body := body_error "Title is required" |}, st)
  else
    let taskData :=
      {| p_title := p_title body;
         p_description := Some (or_else (p_description body) "");
         p_completed := Some (default false (p_completed body)) |} in
    match createTask taskData st with
    | (Resolve task, st') =>
        ({| res_status := 201; res_body := body_task task |}, st')
    | (Reject _, st') =>
        ({| res_status := 500;
            res_body := body_error "Failed to create task" |}, st')
    end.

End TaskService.

(** ** A concrete environment

    The examples, witnesses and counterexamples run the services in this
    environment: identifiers [uuid-0], [uuid-1], ..., a clock that advances
    by one second per reading, a remote API that accepts [POST] and
    [DELETE] and answers every [PUT] with a 409, an axios that refuses a
    body that is a non-zero number or [true] before anything is sent, a
    database without faults, and a JSON codec for ASCII text and integral
    numbers. *)

Module Demo.

Definition dquote : ascii := ascii_of_nat 34.
Definition backslash : ascii := ascii_of_nat 92.

Definition hex_digit (n : nat) : ascii :=
  match String.get n "0123456789abcdef" with
  | Some c => c
  | None => "0"%char
  end.

Definition escape_char (c : ascii) : string :=
  let n := nat_of_ascii c in
  if decide (n = 34) then String backslash (String dquote "")
  else if decide (n = 92) then String backslash (String backslash "")
  else if decide (n = 8) then String backslash "b"
  else if decide (n = 12) then String backslash "f"
  else if decide (n = 10) then String backslash "n"
  else if decide (n = 13) then String backslash "r"
  else if decide (n = 9) then String backslash "t"
  else if decide (n < 32) then
    String backslash
      (String "u" (String "0" (String "0"
         (String (hex_digit (n / 16)) (String (hex_digit (n mod 16)) "")))))
  else String c "".

Fixpoint escape (s : string) : string :=
  match s with
  | EmptyString => ""
  | String c rest => escape_char c +:+ escape rest
  end.

Definition quote (s : string) : string :=
  String dquote (escape s +:+ String dquote "").

Fixpoint stringify (v : json) : string :=
  match v with
  | JNull => "null"
  | JBool true => "true"
  | JBool false => "false"
  | JNumber n => pretty n
  | JString s => quote s
  | JArray items => "[" +:+ String.concat "," (map stringify items) +:+ "]"
  | JObject fields =>
      "{" +:+ String.concat ","
                (map (fun kv => quote (fst kv) +:+ ":" +:+ stringify (snd kv))
                   fields) +:+ "}"
  end.

Definition is_ws (c : ascii) : bool :=
  let n := nat_of_ascii c in
  bool_decide (n = 32 \/ n = 9 \/ n = 10 \/ n = 13).

Fixpoint skip_ws (s : string) : string :=
  match s with
  | EmptyString => ""
  | String c rest => if is_ws c then skip_ws rest else s
  end.

Definition unescape (c : ascii) : option ascii :=
  let n := nat_of_ascii c in
  if decide (n = 34) then Some dquote
  else if decide (n = 92) then Some backslash
  else if decide (n = 47) then Some "/"%char
  else if decide (n = 98) then Some (ascii_of_nat 8)
  else if decide (n = 102) then Some (ascii_of_nat 12)
  else if decide (n = 110) then Some (ascii_of_nat 10)
  else if decide (n = 114) then Some (ascii_of_nat 13)
  else if decide (n = 116) then Some (ascii_of_nat 9)
  else None.

Definition hex_value (c : ascii) : option nat :=
  let n := nat_of_ascii c in
  if decide (48 <= n <= 57) then Some (n - 48)
  else if decide (97 <= n <= 102) then Some (n - 87)
  else if decide (65 <= n <= 70) then Some (n - 55)
  else None.

(** The characters of a string literal after its opening quote, and the
    text after its closing quote. *)
Fixpoint parse_chars (s : string) : option (string * string) :=
  match s with
  | EmptyString => None
  | String c rest =>
      if decide (c = dquote) then Some ("", rest)
      else if decide (c = backslash) then
        match rest with
        | String e rest' =>
            match unescape e with
            | Some c' =>
                match parse_chars rest' with
                | Some (str, after) => Some (String c' str, after)
                | None => None
                end
            | None =>
                match rest' with
                | String "0" (String "0" (String h (String l rest''))) =>
                    if decide (e = "u"%char) then
                      match hex_value h, hex_value l, parse_chars rest'' with
                      | Some hi, Some lo, Some (str, after) =>
                          if decide (hi < 8) then
                            Some (String (ascii_of_nat (16 * hi + lo)) str,
                                  after)
                          else None
                      | _, _, _ => None
                      end
                    else None
                | _ => None
                end
            end
        | EmptyString => None
        end
      else if decide (nat_of_ascii c < 32) then None
      else
        match parse_chars rest with
        | Some (str, after) => Some (String c str, after)
        | None => None
        end
  end.

Definition digit_value (c : ascii) : option Z :=
  let n := nat_of_ascii c in
  if decide (48 <= n <= 57) then Some (Z.of_nat (n - 48)) else None.

Fixpoint parse_digits (s : string) (acc : Z) : Z * string :=
  match s with
  | String c rest =>
      match digit_value c with
      | Some d => parse_digits rest (10 * acc + d)%Z
      | None => (acc, s)
      end
  | EmptyString => (acc, "")
  end.

(** An integer literal: no leading zero, no fraction, no exponent. *)
Definition parse_nat_literal (s : string) : option (Z * string) :=
  match s with
  | String c rest =>
      match digit_value c with
      | Some 0%Z =>
          match rest with
          | String c' _ =>
              if decide (is_Some (digit_value c')) then None
              else Some (0%Z, rest)
          | EmptyString => Some (0%Z, rest)
          end
      | Some d => Some (parse_digits rest d)
      | None => None
      end
  | EmptyString => None
  end.

Definition parse_int_literal (s : string) : option (Z * string) :=
  match s with
  | String "-" rest =>
      match parse_nat_literal rest with
      | Some (n, after) => Some ((- n)%Z, after)
      | None => None
      end
  | _ => parse_nat_literal s
  end.

(** A repeated key keeps its first position and takes the last value. *)
Fixpoint set_field (fields : list (string * json)) (k : string) (v : json)
    : list (string * json) :=
  match fields with
  | [] => [(k, v)]
  | (k', v') :: rest =>
      if decide (k' = k) then (k, v) :: rest
      else (k', v') :: set_field rest k v
  end.

Definition strip (lit : string) (s : string) : option string :=
  if String.prefix lit s
  then Some (String.substring (String.length lit)
               (String.length s - String.length lit) s)
  else None.

Fixpoint parse_value (fuel : nat) (s : string) : option (json * string) :=
  match fuel with
  | O => None
  | S fuel =>
      match skip_ws s with
      | EmptyString => None
      | String c rest as s' =>
          if decide (c = dquote) then
            match parse_chars rest with
            | Some (str, after) => Some (JString str, after)
            | None => None
            end
          else if decide (c = "["%char) then
            match skip_ws rest with
            | String "]" after => Some (JArray [], after)
            | _ =>
                match parse_elements fuel rest with
                | Some (items, after) => Some (JArray items, after)
                | None => None
                end
            end
          else if decide (c = "{"%char) then
            match skip_ws rest with
            | String "}" after => Some (JObject [], after)
            | _ =>
                match parse_members fuel rest [] with
                | Some (fields, after) => Some (JObject fields, after)
                | None => None
                end
            end
          else
            match strip "null" s', strip "true" s', strip "false" s' with
            | Some after, _, _ => Some (JNull, after)
            | _, Some after, _ => Some (JBool true, after)
            | _, _, Some after => Some (JBool false, after)
            | _, _, _ =>
                match parse_int_literal s' with
                | Some (n, after) => Some (JNumber n, after)
                | None => None
                end
            end
      end
  end
with parse_elements (fuel : nat) (s : string) : option (list json * string) :=
  match fuel with
  | O => None
  | S fuel =>
      match parse_value fuel s with
      | Some (v, after) =>
          match skip_ws after with
          | String "," after' =>
              match parse_elements fuel after' with
              | Some (vs, after'') => Some (v :: vs, after'')
              | None => None
              end
          | String "]" after' => Some ([v], after')
          | _ => None
          end
      | None => None
      end
  end
with parse_members (fuel : nat) (s : string) (acc : list (string * json))
    : option (list (string * json) * string) :=
  match fuel with
  | O => None
  | S fuel =>
      match skip_ws s with
      | String c rest =>
          if decide (c = dquote) then
            match parse_chars rest with
            | Some (k, after) =>
                match skip_ws after with
                | String ":" after' =>
                    match parse_value fuel after' with
                    | Some (v, after'') =>
                        let acc' := set_field acc k v in
                        match skip_ws after'' with
                        | String "," more => parse_members fuel more acc'
                        | String "}" more => Some (acc', more)
                        | _ => None
                        end
                    | None => None
                    end
                | _ => None
                end
            | None => None
            end
          else None
      | EmptyString => None
      end
  end.

Definition parse (s : string) : Outcome json :=
  match parse_value (2 * String.length s + 2) s with
  | Some (v, after) =>
      match skip_ws after with
      | EmptyString => Resolve v
      | _ => Reject (Error_ "Unexpected non-whitespace character after JSON")
      end
  | None => Reject (Error_ "Unexpected token in JSON")
  end.

Definition two_digits (n : nat) : string :=
  if decide (n < 10) then "0" +:+ pretty n else pretty n.

Definition clock (k : nat) : string :=
  "2024-05-01T10:" +:+ two_digits (k / 60 mod 60) +:+ ":"
  +:+ two_digits (k mod 60) +:+ ".000Z".

Definition conflict : JsError :=
  {| message := "Request failed with status code 409";
     isAxiosError := true;
     response_data_message := Some "Conflict" |}.

(** The error of axios for a body it cannot put on the wire. *)
Definition refused : JsError :=
  {| message := "Data after transformation must be a string, "
                +:+ "an ArrayBuffer, a Buffer, or a Stream";
     isAxiosError := true;
     response_data_message := None |}.

(** A truthy body that is neither a string nor an object. *)
Definition unsendable (body : json) : bool :=
  match body with
  | JNumber n => bool_decide (n <> 0%Z)
  | JBool b => b
  | _ => false
  end.

Definition remote (history : list Request) (r : Request) : option JsError :=
  match r with
  | POST _ body => if unsendable body then Some refused else None
  | PUT _ body => if unsendable body then Some refused else Some conflict
  | DELETE _ => None
  end.

Definition env : Env :=
  {| apiUrl := "http://localhost:3000/api";
     uuidv4 := fun k => "uuid-" +:+ pretty k;
     Date_toISOString := clock;
     axios := remote;
     db_fault := fun _ => None;
     JSON_parse := parse;
     JSON_stringify := stringify |}.

(** The same environment with the storage unavailable. *)
Definition env_down : Env :=
  {| apiUrl := apiUrl env;
     uuidv4 := uuidv4 env;
     Date_toISOString := Date_toISOString env;
     axios := axios env;
     db_fault := fun _ => Some "SQLITE_CANTOPEN: unable to open database file";
     JSON_parse := JSON_parse env;
     JSON_stringify := JSON_stringify env |}.

Definition empty : State :=
  {| db := {| tasks := []; sync_queue := [] |};
     requests := []; console := []; uuids := 0; dates := 0; db_calls := 0 |}.

End Demo.

(** ** The rest of SyncService: counts, last sync time, purge *)

Definition string_desc (a b : string) : Prop := String.le b a.

#[global] Instance string_desc_dec : RelDecision string_desc.
Proof. intros a b. unfold string_desc. apply _. Defined.

(** [SELECT last_synced_at FROM tasks WHERE last_synced_at IS NOT NULL
    ORDER BY last_synced_at DESC LIMIT 1] *)
Definition sql_select_last_synced (d : Tables) : list string :=
  take 1 (merge_sort string_desc (omap Task.last_synced_at (tasks d))).

(** [SELECT COUNT( * ) as count FROM sync_queue] *)
Definition sql_count_total (d : Tables) : list Z :=
  [Z.of_nat (length (sync_queue d))].

(** [DELETE FROM sync_queue] *)
Definition sql_delete_all_sync_queue (d : Tables) : Tables * Z :=
  ({| tasks := tasks d; sync_queue := [] |},
   Z.of_nat (length (sync_queue d))).

(** [SELECT * FROM tasks WHERE is_deleted = 0] *)
Definition sql_select_all_tasks (d : Tables) : list Task.t :=
  filter (fun t => Task.is_deleted t = false) (tasks d).

#[global] Instance SyncStatus_eq_dec : EqDecision SyncStatus.
Proof. solve_decision. Defined.

(** [SELECT * FROM tasks WHERE sync_status IN (?, ?) AND is_deleted = 0] *)
Definition sql_select_tasks_in_status (s1 s2 : SyncStatus) (d : Tables)
    : list Task.t :=
  filter (fun t => (Task.sync_status t = s1 \/ Task.sync_status t = s2)
                   /\ Task.is_deleted t = false) (tasks d).

(** An answer of the routes of one record: [res.json(task)],
    [res.status(code).json({ error })] and [res.status(204).send()]. *)
Inductive Reply :=
| reply_task (code : Z) (task : Task.t)
| reply_error (code : Z) (error_ : string)
| reply_empty (code : Z).

(** The body of [POST /retry], an object: [body_all] is whether its [all]
    is truthy, [body_ids] is its [ids] when [Array.isArray(ids)], an array
    of strings. *)
Record RetryBody := {
  body_ids : option (list string);
  body_all : bool
}.

(** An answer of [POST /retry]: [res.json({ success: true, retried,
    failed, message })], or [res.status(code).json({ error, ... })]. *)
Inductive RetryReply :=
| retry_done (retried_ failed_ : Z) (text : string)
| retry_rejected (code : Z) (error_ : string).

Section MoreServices.

Variable E : Env.

Definition getLastSyncTime : M (option string) :=
  try_catch
    (let* result := db_get E sql_select_last_synced in
     ret (match result with
          | Some s => if decide (s = "") then None else Some s
          | None => None
          end))
    (fun err =>
       do console_error "Failed to get last sync time:" err then ret None).

Definition getTotalSyncItems : M Z :=
  try_catch
    (let* result := db_get E sql_count_total in
     ret (default 0%Z result))
    (fun err =>
       do console_error "Failed to get total sync items:" err then ret 0%Z).

Definition clearSyncQueue : M Z :=
  try_catch
    (db_run E sql_delete_all_sync_queue)
    (fun err =>
       do console_error "Failed to clear sync queue:" err then ret 0%Z).

Definition getAllTasks : M (list Task.t) :=
  db_all E sql_select_all_tasks.

Definition getTasksNeedingSync : M (list Task.t) :=
  db_all E (sql_select_tasks_in_status pending error).

(** [router.get('/:id', ...)] of [createTaskRouter] *)
Definition createTaskRouter_get (id : string) (st : State) : Reply * State :=
  match getTask E id st with
  | (Resolve (Some task), st') => (reply_task 200 task, st')
  | (Resolve None, st') => (reply_error 404 "Task not found", st')
  | (Reject _, st') => (reply_error 500 "Failed to fetch task", st')
  end.

(** [router.put('/:id', ...)]: the fields of the body that are not
    [undefined] are the updates. *)
Definition createTaskRouter_put (taskId : string) (body : PartialTask)
    (st : State) : Reply * State :=
  let updates :=
    {| p_title := p_title body;
       p_description := p_description body;
       p_completed := p_completed body |} in
  match updateTask E taskId updates st with
  | (Resolve (Some updatedTask), st') => (reply_task 200 updatedTask, st')
  | (Resolve None, st') => (reply_error 404 "Task not found", st')
  | (Reject _, st') => (reply_error 500 "Failed to update task", st')
  end.

(** [router.delete('/:id', ...)] *)
Definition createTaskRouter_delete (taskId : string) (st : State)
    : Reply * State :=
  match deleteTask E taskId st with
  | (Resolve true, st') => (reply_empty 204, st')
  | (Resolve false, st') => (reply_error 404 "Task not found", st')
  | (Reject _, st') => (reply_error 500 "Failed to delete task", st')
  end.

(** [router.post('/retry', ...)] of [createSyncRouter]
    ([src/unnamed/part_000]) *)
Definition createSyncRouter_retry (body : RetryBody) (st : State)
    : RetryReply * State :=
  let answer (result : Outcome RetryResult * State) :=
    match result with
    | (Resolve r, st') =>
        (retry_done (retried r) (failed r)
           ("Retried " +:+ pretty (retried r) +:+ " items, "
            +:+ pretty (failed r) +:+ " failed"), st')
    | (Reject err, st') =>
        (retry_rejected 500 "Failed to retry sync operations",
         snd (console_error "Retry failed:" err st'))
    end in
  if body_all body then answer (retryAllFailed E st)
  else
    match body_ids body with
    | Some ids => answer (retryFailed E ids st)
    | None =>
        (retry_rejected 400
           "Either provide an array of ids or set all=true", st)
    end.

End MoreServices.

(** ** Vocabulary of the properties *)

(** The lines written with [console.log], without the [console.error] ones. *)
Definition logs (st : State) : list string :=
  omap (fun e => match e with
                 | console_log_entry text => Some text
                 | console_error_entry _ _ => None
                 end) (console st).

Definition preserves {X A} (obs : State -> X) (m : M A) : Prop :=
  forall st, obs (snd (m st)) = obs st.

(** The database answers every statement. *)
Definition storage_ok (E : Env) : Prop := forall k, db_fault E k = None.

(** The line [processSyncItem] logs for an intent. *)
Definition processing_line (item : SyncQueueItem.t) : string :=
  "Processing sync item: " +:+ operation item +:+ " task " +:+ task_id item.

Definition after_success (v : LoopVars) (item : SyncQueueItem.t) : LoopVars :=
  {| successCount := successCount v + 1;
     errorCount := errorCount v;
     details_ := <[id item := DetailSuccess (task_id item)]> (details_ v) |}.

Definition after_failure (v : LoopVars) (item : SyncQueueItem.t)
    (err : JsError) : LoopVars :=
  {| successCount := successCount v;
     errorCount := errorCount v + 1;
     details_ := <[id item := DetailError (task_id item) (message err)]>
                   (details_ v) |}.

Definition is_success (o : option Detail) : bool :=
  match o with
  | Some (DetailSuccess _) => true
  | _ => false
  end.

Definition is_error (o : option Detail) : bool :=
  match o with
  | Some (DetailError _ _) => true
  | _ => false
  end.

(** Where an intent of the snapshot stands once the loop is over. *)
Definition settled (item : SyncQueueItem.t) (o : option Detail)
    (queue : list SyncQueueItem.t) : Prop :=
  match o with
  | Some (DetailSuccess taskId) =>
      taskId = task_id item /\ id item ∉ id <$> queue
  | Some (DetailError taskId msg) =>
      taskId = task_id item
      /\ exists at_,
           set_failed (retry_count item + 1) msg at_ item ∈ queue
  | None => False
  end.



(** An intent that [retry_count] classifies as failed. *)
Definition exhausted (r : SyncQueueItem.t) : Prop :=
  (retry_count r >= maxRetries)%Z.

(** The identifier names an exhausted intent of the queue. *)
Definition names_exhausted (queue : list SyncQueueItem.t) (i : string) : Prop :=
  Exists (fun r => id r = i /\ exhausted r) queue.

#[global] Instance exhausted_dec r : Decision (exhausted r).
Proof. unfold exhausted. apply _. Defined.

#[global] Instance names_exhausted_dec queue i :
  Decision (names_exhausted queue i).
Proof. unfold names_exhausted. apply _. Defined.

(** [retry_selected] in the words of the spec: the supplied ids are taken
    one at a time; an id whose intent is exhausted has that intent reset
    and counts as retried, every other id counts as failed to retry. *)
Fixpoint retry_selected_spec (ids : list string)
    (queue : list SyncQueueItem.t) : RetryResult * list SyncQueueItem.t :=
  match ids with
  | [] => ({| retried := 0; failed := 0 |}, queue)
  | i :: rest =>
      if decide (names_exhausted queue i) then
        let (res, queue') :=
          retry_selected_spec rest
            (update_where (fun r => id r = i /\ exhausted r) set_reset queue)
        in ({| retried := retried res + 1; failed := failed res |}, queue')
      else
        let (res, queue') := retry_selected_spec rest queue in
        ({| retried := retried res; failed := failed res + 1 |}, queue')
  end.

(** The intent [addToSyncQueue] appends for a record: the identifier and
    the time are the [k_uuid]-th and [k_date]-th readings of the
    environment. *)
Definition new_intent (E : Env) (k_uuid k_date : nat)
    (taskId operation : string) (snapshot : Task.t) : SyncQueueItem.t :=
  {| id := uuidv4 E k_uuid; task_id := taskId; operation := operation;
     data := JSON_stringify E (Task_to_json snapshot);
     created_at := Date_toISOString E k_date;
     retry_count := 0; error_message := None; updated_at := None |}.

(** ** States of the examples *)

Module Example.

Definition task (i title : string) (status : SyncStatus) : Task.t :=
  {| Task.id := i; Task.title := title; Task.description := "";
     Task.completed := false;
     Task.created_at := "2024-05-01T08:00:00.000Z";
     Task.updated_at := "2024-05-01T08:00:00.000Z";
     Task.is_deleted := false; Task.sync_status := status;
     Task.server_id := None; Task.last_synced_at := None |}.

Definition intent (i taskId operation : string) (payload : json)
    (created : string) (retries : Z) (err : option string)
    : SyncQueueItem.t :=
  {| id := i; task_id := taskId; operation := operation;
     data := Demo.stringify payload; created_at := created;
     retry_count := retries; error_message := err; updated_at := None |}.

Definition state (records : list Task.t) (queue : list SyncQueueItem.t)
    : State :=
  {| db := {| tasks := records; sync_queue := queue |};
     requests := []; console := []; uuids := 0; dates := 0; db_calls := 0 |}.

(** An intent forced to fail that has already failed twice. *)
Definition failing : SyncQueueItem.t :=
  intent "q1" "t1" "fail" (JObject []) "2024-05-01T09:00:01.000Z" 2
    (Some "Forced failure for testing").

(** A creation the remote API accepts. *)
Definition accepted : SyncQueueItem.t :=
  intent "q2" "t2" "create" (JObject [("title", JString "Buy milk")])
    "2024-05-01T09:00:02.000Z" 0 None.


(** An intent that failed once: it carries a message and is still
    pending. *)
Definition failed_once : SyncQueueItem.t :=
  intent "q4" "t4" "update" (JObject []) "2024-05-01T09:00:04.000Z" 1
    (Some "API Error: Conflict").

(** An exhausted intent. *)
Definition worn_out : SyncQueueItem.t :=
  intent "q5" "t5" "update" (JObject []) "2024-05-01T09:00:05.000Z" 3
    (Some "API Error: Conflict").

End Example.

(** ** Vocabulary of the further properties *)

(** What [makeApiCall] turns a rejection of axios into. *)
Definition api_error (e : JsError) : JsError :=
  if isAxiosError e
  then Error_ ("API Error: " +:+ or_else (response_data_message e) (message e))
  else e.

(** The call of axios [makeApiCall] makes for an operation, if it makes
    one. *)
Definition request_of (E : Env) (operation : string) (data : json)
    (taskId : string) : option Request :=
  if decide (operation = "create") then
    Some (POST (apiUrl E +:+ "/tasks") data)
  else if decide (operation = "update") then
    Some (PUT (apiUrl E +:+ "/tasks/" +:+ taskId) data)
  else if decide (operation = "delete") then
    Some (DELETE (apiUrl E +:+ "/tasks/" +:+ taskId))
  else None.

(** The payload [processSyncItem] reads from an intent: the empty object
    for an empty [data], what [JSON.parse] answers otherwise. *)
Definition payload_of (E : Env) (item : SyncQueueItem.t) (payload : json)
    : Prop :=
  if decide (data item = "") then payload = JObject []
  else JSON_parse E (data item) = Resolve payload.

(** The calls of axios one intent of a pass accounts for: none, or the one
    call of [makeApiCall] for its operation, its payload and its record. *)
Definition calls_of (E : Env) (item : SyncQueueItem.t)
    (calls : list Request) : Prop :=
  calls = []
  \/ exists payload q,
       payload_of E item payload
       /\ request_of E (operation item) payload (task_id item) = Some q
       /\ calls = [q].

(** Two records that differ at most in [sync_status] and
    [last_synced_at]. *)
Definition same_record (a b : Task.t) : Prop :=
  Task.id a = Task.id b /\ Task.title a = Task.title b
  /\ Task.description a = Task.description b
  /\ Task.completed a = Task.completed b
  /\ Task.created_at a = Task.created_at b
  /\ Task.updated_at a = Task.updated_at b
  /\ Task.is_deleted a = Task.is_deleted b
  /\ Task.server_id a = Task.server_id b.

(** Two intents that differ at most in [retry_count], [error_message] and
    [updated_at]. *)
Definition same_intent (a b : SyncQueueItem.t) : Prop :=
  id a = id b /\ task_id a = task_id b /\ operation a = operation b
  /\ data a = data b /\ created_at a = created_at b.

(** An intent as the engine writes it: it carries an error message
    exactly when it has failed since it was enqueued or reset. *)
Definition well_formed (r : SyncQueueItem.t) : Prop :=
  (0 <= retry_count r)%Z
  /\ (error_message r = None <-> retry_count r = 0%Z).

(** The concrete environment with a storage that fails at one statement:
    the [n]-th statement since the start (counted from 0) is answered with
    an error, every other statement is executed. *)
Module Outage.

Definition env_at (n : nat) : Env :=
  {| apiUrl := apiUrl Demo.env;
     uuidv4 := uuidv4 Demo.env;
     Date_toISOString := Date_toISOString Demo.env;
     axios := axios Demo.env;
     db_fault := fun k =>
       if decide (k = n) then Some "SQLITE_FULL: database or disk is full"
       else None;
     JSON_parse := JSON_parse Demo.env;
     JSON_stringify := JSON_stringify Demo.env |}.

End Outage.

(** * Properties *)

(** ** What a computation leaves untouched *)

Lemma preserves_ret {X A} (obs : State -> X) (a : A) : preserves obs (ret a).
Proof. by intros st. Qed.

Lemma preserves_throw {X A} (obs : State -> X) e :
  preserves obs (throw (A:=A) e).
Proof. by intros st. Qed.

Lemma preserves_bind {X A B} (obs : State -> X) (m : M A) (k : A -> M B) :
  preserves obs m -> (forall a, preserves obs (k a)) ->
  preserves obs (bind m k).
Proof.
  intros Hm Hk st. unfold bind. specialize (Hm st).
  destruct (m st) as [[a|e] st']; simpl in *; [|done].
  by rewrite Hk.
Qed.

Lemma preserves_try_catch {X A} (obs : State -> X) (m : M A) h :
  preserves obs m -> (forall e, preserves obs (h e)) ->
  preserves obs (try_catch m h).
Proof.
  intros Hm Hh st. unfold try_catch. specialize (Hm st).
  destruct (m st) as [[a|e] st']; simpl in *; [done|].
  by rewrite Hh.
Qed.

Lemma preserves_pure {X A} (obs : State -> X) (o : Outcome A) :
  preserves obs (fun st => (o, st)).
Proof. by intros st. Qed.

Lemma console_error_logs text e : preserves logs (console_error text e).
Proof.
  intros st. unfold logs, console_error. simpl.
  by rewrite omap_app, app_nil_r.
Qed.





Lemma console_log_logs text st :
  logs (snd (console_log text st)) = (logs st ++ [text])%list.
Proof. unfold logs, console_log. simpl. by rewrite omap_app. Qed.

Create HintDb frame discriminated.

#[local] Hint Resolve preserves_ret preserves_throw preserves_pure
  console_error_logs : frame.

Section Frame.

Variable E : Env.



Lemma new_Date_logs : preserves logs (new_Date_toISOString E).
Proof. by intros st. Qed.


Lemma new_Date_requests : preserves requests (new_Date_toISOString E).
Proof. by intros st. Qed.

Lemma axios_call_logs r : preserves logs (axios_call E r).
Proof. intros st. unfold axios_call. by case_match. Qed.


Lemma db_statement_logs {A} (stmt : Tables -> A * Tables) :
  preserves logs (db_statement E stmt).
Proof. intros st. unfold db_statement. repeat case_match; done. Qed.

Lemma db_statement_requests {A} (stmt : Tables -> A * Tables) :
  preserves requests (db_statement E stmt).
Proof. intros st. unfold db_statement. repeat case_match; done. Qed.

Lemma db_run_logs stmt : preserves logs (db_run E stmt).
Proof. apply db_statement_logs. Qed.

Lemma db_run_requests stmt : preserves requests (db_run E stmt).
Proof. apply db_statement_requests. Qed.

End Frame.

#[local] Hint Resolve new_Date_logs new_Date_requests axios_call_logs
  db_statement_logs db_statement_requests db_run_logs db_run_requests : frame.

(** Splits a computation along its binds, handlers and branches and closes
    the leaves with the frame lemmas of the primitives. *)
Ltac frame :=
  repeat first
    [ apply preserves_bind; [|intros ?]
    | apply preserves_try_catch; [|intros ?]
    | progress eauto 2 with frame
    | case_decide
    | case_match ].

Section Engine.

Variable E : Env.

Lemma get_property_preserves {X} (obs : State -> X) v key :
  preserves obs (get_property v key).
Proof. destruct v; simpl; eauto with frame. Qed.

Lemma makeApiCall_logs op data taskId :
  preserves logs (makeApiCall E op data taskId).
Proof. unfold makeApiCall. frame. Qed.

Lemma handleSyncError_logs item err :
  preserves logs (handleSyncError E item err).
Proof. unfold handleSyncError. frame. Qed.

Lemma handleSyncError_requests item err :
  preserves requests (handleSyncError E item err).
Proof. unfold handleSyncError. frame. Qed.

(** Each processed intent writes exactly one [console.log] line. *)
Lemma processSyncItem_logs item st :
  logs (snd (processSyncItem E item st))
  = (logs st ++ [processing_line item])%list.
Proof.
  unfold processSyncItem. unfold bind at 1, console_log at 1.
  match goal with |- logs (snd (?m _)) = _ =>
    assert (preserves logs m) as Hp end.
  { pose proof (@get_property_preserves (list string) logs).
    pose proof makeApiCall_logs. frame. }
  rewrite Hp. unfold logs. simpl. by rewrite omap_app.
Qed.


(** ** Rows under [UPDATE] and [DELETE] *)

Lemma elem_of_update_where {A} (P : A -> Prop) `{!forall x, Decision (P x)}
    (set : A -> A) (rows : list A) (r' : A) :
  r' ∈ update_where P set rows <->
  exists r, r ∈ rows /\ r' = (if decide (P r) then set r else r).
Proof.
  unfold update_where. rewrite list_elem_of_fmap. split.
  - intros (r & -> & Hr). by exists r.
  - intros (r & Hr & ->). by exists r.
Qed.

Lemma update_where_key {A K} (P : A -> Prop) `{!forall x, Decision (P x)}
    (set : A -> A) (key : A -> K) (rows : list A) :
  (forall r, key (set r) = key r) ->
  key <$> update_where P set rows = key <$> rows.
Proof.
  intros Hkey. unfold update_where. rewrite <- list_fmap_compose.
  apply list_fmap_ext. intros _ r _. simpl. by case_decide.
Qed.

Lemma update_where_other {A} (P : A -> Prop) `{!forall x, Decision (P x)}
    (set : A -> A) (rows : list A) (r : A) :
  ~ P r -> (forall x, P x -> P (set x)) ->
  r ∈ update_where P set rows <-> r ∈ rows.
Proof.
  intros Hr Hset. rewrite elem_of_update_where. split.
  - intros (x & Hx & ->). case_decide; [|done]. destruct Hr. by apply Hset.
  - intros Hin. exists r. by rewrite decide_False.
Qed.

(** ** One intent *)

Lemma processSyncItem_Resolve item st u st1 :
  processSyncItem E item st = (Resolve u, st1) ->
  tasks (db st1)
  = update_where (fun t => Task.id t = task_id item)
      (set_task_synced synced (Date_toISOString E (dates st)))
      (tasks (db st))
  /\ sync_queue (db st1)
     = filter (fun r => id r <> id item) (sync_queue (db st)).
Proof.
  unfold processSyncItem, makeApiCall, get_property, bind, try_catch, ret,
    throw, console_log, console_error, axios_call, new_Date_toISOString,
    db_run, db_statement, set_db.
  intros H. repeat (case_match; simplify_eq/=; try done).
Qed.

Lemma processSyncItem_Reject item st err st1 :
  storage_ok E ->
  processSyncItem E item st = (Reject err, st1) ->
  db st1 = db st /\ dates st1 = dates st.
Proof.
  intros Hok.
  unfold processSyncItem, makeApiCall, get_property, bind, try_catch, ret,
    throw, console_log, console_error, axios_call, new_Date_toISOString,
    db_run, db_statement, set_db.
  intros H.
  repeat (case_match; simplify_eq/=; try done;
          try (rewrite Hok in *; simplify_eq/=)).
Qed.

Lemma handleSyncError_ok item err st :
  storage_ok E ->
  exists st2,
    handleSyncError E item err st = (Resolve tt, st2)
    /\ sync_queue (db st2)
       = update_where (fun r => id r = id item)
           (set_failed (retry_count item + 1) (message err)
              (Date_toISOString E (dates st)))
           (sync_queue (db st))
    /\ tasks (db st2)
       = (if decide (retry_count item + 1 >= maxRetries)%Z
          then update_where (fun t => Task.id t = task_id item)
                 (set_task_status error) (tasks (db st))
          else tasks (db st)).
Proof.
  intros Hok.
  unfold handleSyncError, bind, ret, new_Date_toISOString, db_run,
    db_statement, set_db.
  simpl. rewrite !Hok. simpl. case_decide; simpl.
  - rewrite Hok. simpl. eauto.
  - eauto.
Qed.

(** ** The loop of a pass *)

(** With the storage available an iteration either syncs the intent or
    records its failure, and the loop goes on in both cases. *)
Lemma sync_loop_cons item rest v st :
  storage_ok E ->
  (exists st1,
      processSyncItem E item st = (Resolve tt, st1)
      /\ sync_loop E (item :: rest) v st
         = sync_loop E rest (after_success v item) st1
      /\ sync_queue (db st1)
         = filter (fun r => id r <> id item) (sync_queue (db st)))
  \/ (exists err st1 st2,
         processSyncItem E item st = (Reject err, st1)
         /\ handleSyncError E item err st1 = (Resolve tt, st2)
         /\ sync_loop E (item :: rest) v st
            = sync_loop E rest (after_failure v item err) st2
         /\ sync_queue (db st2)
            = update_where (fun r => id r = id item)
                (set_failed (retry_count item + 1) (message err)
                   (Date_toISOString E (dates st)))
                (sync_queue (db st))).
Proof.
  intros Hok. simpl.
  destruct (processSyncItem E item st) as [[[]|err] st1] eqn:Hp.
  - left. exists st1. split_and!; try done.
    by apply processSyncItem_Resolve in Hp as [_ ?].
  - right.
    destruct (handleSyncError_ok item err st1 Hok) as (st2 & Hh & Hq & _).
    apply processSyncItem_Reject in Hp as [Hdb Hdates]; [|done].
    exists err, st1, st2. rewrite Hh. split_and!; try done.
    by rewrite Hq, Hdb, Hdates.
Qed.

Lemma sync_loop_complete items :
  storage_ok E ->
  forall v st, exists v' st',
    sync_loop E items v st = ((v', None), st')
    /\ (successCount v' + errorCount v'
        = successCount v + errorCount v + Z.of_nat (length items))%Z
    /\ (forall k, is_Some (details_ v !! k) -> is_Some (details_ v' !! k))
    /\ (forall item, item ∈ items -> is_Some (details_ v' !! id item))
    /\ (forall k, k ∉ id <$> items -> details_ v' !! k = details_ v !! k).
Proof.
  intros Hok. induction items as [|item rest IH]; intros v st.
  - exists v, st. simpl. split_and!; try done; [lia|].
    by intros ? ?%elem_of_nil.
  - destruct (sync_loop_cons item rest v st Hok)
      as [(st1 & _ & -> & _)|(err & st1 & st2 & _ & _ & -> & _)].
    + destruct (IH (after_success v item) st1)
        as (v' & st' & -> & Hn & Hmono & Hall & Hoff).
      exists v', st'. simpl in *. split_and!; [done|lia|..].
      * intros k Hk. apply Hmono.
        destruct (decide (id item = k)) as [->|].
        -- by rewrite lookup_insert_eq.
        -- by rewrite lookup_insert_ne.
      * intros x [->|Hx]%elem_of_cons; [|by apply Hall].
        apply Hmono. by rewrite lookup_insert_eq.
      * intros k [Hk1 Hk2]%not_elem_of_cons.
        rewrite Hoff by done. by rewrite lookup_insert_ne.
    + destruct (IH (after_failure v item err) st2)
        as (v' & st' & -> & Hn & Hmono & Hall & Hoff).
      exists v', st'. simpl in *. split_and!; [done|lia|..].
      * intros k Hk. apply Hmono.
        destruct (decide (id item = k)) as [->|].
        -- by rewrite lookup_insert_eq.
        -- by rewrite lookup_insert_ne.
      * intros x [->|Hx]%elem_of_cons; [|by apply Hall].
        apply Hmono. by rewrite lookup_insert_eq.
      * intros k [Hk1 Hk2]%not_elem_of_cons.
        rewrite Hoff by done. by rewrite lookup_insert_ne.
Qed.

(** The [console.log] lines of a loop are those of a prefix of its items,
    in order; of all of them when the loop is not left early. *)
Lemma sync_loop_logs items :
  forall v st, exists n,
    logs (snd (sync_loop E items v st))
    = (logs st ++ (processing_line <$> take n items))%list
    /\ (snd (fst (sync_loop E items v st)) = None -> n = length items).
Proof.
  induction items as [|item rest IH]; intros v st.
  - exists 0. simpl. by rewrite app_nil_r.
  - simpl. pose proof (processSyncItem_logs item st) as Hlog.
    destruct (processSyncItem E item st) as [[[]|err] st1]; simpl in Hlog.
    + destruct (IH (after_success v item) st1) as (n & Hn & Hlen).
      exists (S n). unfold after_success in *. rewrite Hn, Hlog. simpl.
      rewrite <- app_assoc. split; [done|]. intros H. by rewrite Hlen.
    + pose proof (handleSyncError_logs item err st1) as Hh.
      destruct (handleSyncError E item err st1) as [[[]|fatal] st2];
        simpl in Hh.
      * destruct (IH (after_failure v item err) st2) as (n & Hn & Hlen).
        exists (S n). unfold after_failure in *. simpl in *.
        rewrite Hn, Hh, Hlog. simpl.
        rewrite <- app_assoc. split; [done|]. intros H. by rewrite Hlen.
      * exists 1. simpl. rewrite ?take_0. simpl. by rewrite Hh, Hlog.
Qed.

Lemma sync_loop_settled items :
  storage_ok E ->
  forall v st v' o st',
    NoDup (id <$> items) ->
    (forall item, item ∈ items -> item ∈ sync_queue (db st)) ->
    sync_loop E items v st = ((v', o), st') ->
    (forall r, id r ∉ id <$> items ->
               r ∈ sync_queue (db st') <-> r ∈ sync_queue (db st))
    /\ (forall item, item ∈ items ->
          settled item (details_ v' !! id item) (sync_queue (db st')))
    /\ successCount v'
       = (successCount v
          + Z.of_nat (length (filter
               (fun item => is_success (details_ v' !! id item)) items)))%Z
    /\ errorCount v'
       = (errorCount v
          + Z.of_nat (length (filter
               (fun item => is_error (details_ v' !! id item)) items)))%Z.
Proof.
  intros Hok. induction items as [|item rest IH]; intros v st v' o st' Hnd Hin.
  - simpl. intros [= <- <- <-]. split_and!; try done; try lia.
    by intros ? ?%elem_of_nil.
  - rewrite fmap_cons in Hnd. apply NoDup_cons in Hnd as [Hfresh Hnd].
    assert (forall x, x ∈ rest -> id x <> id item) as Hne.
    { intros x Hx Heq. apply Hfresh. rewrite <- Heq.
      apply list_elem_of_fmap. by exists x. }
    destruct (sync_loop_cons item rest v st Hok)
      as [(st1 & _ & -> & Hq)|(err & st1 & st2 & _ & _ & -> & Hq)]; intros Hrun.
    + destruct (sync_loop_complete rest Hok (after_success v item) st1)
        as (v1 & st1' & Hrun' & _ & _ & _ & Hoff).
      rewrite Hrun in Hrun'. injection Hrun' as <- -> <-.
      destruct (IH (after_success v item) st1 v' None st')
        as (Ha & Hb & Hc & Hd); [done| |done|].
      { intros x Hx. rewrite Hq. apply list_elem_of_filter.
        split; [by apply Hne|]. apply Hin. by right. }
      cbn [after_success successCount errorCount] in Hc, Hd.
      assert (details_ v' !! id item = Some (DetailSuccess (task_id item)))
        as Hitem.
      { rewrite Hoff by done. simpl. by rewrite lookup_insert_eq. }
      split_and!.
      * intros r [Hr1 Hr2]%not_elem_of_cons. rewrite Ha by done.
        rewrite Hq, list_elem_of_filter. tauto.
      * intros x [->|Hx]%elem_of_cons; [|by apply Hb].
        rewrite Hitem. simpl. split; [done|].
        intros (r & Hr & Hr')%list_elem_of_fmap.
        assert (id r ∉ id <$> rest) as Hnr by (by rewrite <- Hr).
        apply Ha in Hr'; [|done]. rewrite Hq in Hr'.
        apply list_elem_of_filter in Hr' as [? _]. done.
      * rewrite Hc, filter_cons_True by (rewrite Hitem; simpl; tauto).
        cbn [length]. lia.
      * rewrite Hd, filter_cons_False by (rewrite Hitem; simpl; tauto). lia.
    + destruct (sync_loop_complete rest Hok (after_failure v item err) st2)
        as (v1 & st1' & Hrun' & _ & _ & _ & Hoff).
      rewrite Hrun in Hrun'. injection Hrun' as <- -> <-.
      assert (forall r, id r <> id item ->
                r ∈ sync_queue (db st2) <-> r ∈ sync_queue (db st)) as Hother.
      { intros r Hr. rewrite Hq. by apply update_where_other. }
      destruct (IH (after_failure v item err) st2 v' None st')
        as (Ha & Hb & Hc & Hd); [done| |done|].
      { intros x Hx. apply Hother; [by apply Hne|]. apply Hin. by right. }
      cbn [after_failure successCount errorCount] in Hc, Hd.
      assert (details_ v' !! id item
              = Some (DetailError (task_id item) (message err))) as Hitem.
      { rewrite Hoff by done. simpl. by rewrite lookup_insert_eq. }
      split_and!.
      * intros r [Hr1 Hr2]%not_elem_of_cons. rewrite Ha by done.
        by apply Hother.
      * intros x [->|Hx]%elem_of_cons; [|by apply Hb].
        rewrite Hitem. simpl. split; [done|].
        eexists. apply Ha; [done|]. rewrite Hq.
        apply elem_of_update_where. exists item. split; [apply Hin; by left|].
        by rewrite decide_True.
      * rewrite Hc, filter_cons_False by (rewrite Hitem; simpl; tauto). lia.
      * rewrite Hd, filter_cons_True by (rewrite Hitem; simpl; tauto).
        cbn [length]. lia.
Qed.
End Engine.

(** ** The snapshot of a pass *)

#[global] Instance created_asc_total : Total created_asc.
Proof. intros a b. unfold created_asc. apply (total String.le). Qed.

#[global] Instance created_asc_trans : Transitive created_asc.
Proof. intros a b c. unfold created_asc. apply transitivity. Qed.

#[global] Instance created_desc_total : Total created_desc.
Proof. intros a b. unfold created_desc. apply (total String.le). Qed.

#[global] Instance created_desc_trans : Transitive created_desc.
Proof.
  intros a b c Hab Hbc. unfold created_desc in *. by etransitivity.
Qed.

Lemma select_pending_perm n d :
  sql_select_pending n d
  ≡ₚ filter (fun r => (retry_count r < n)%Z) (sync_queue d).
Proof. unfold sql_select_pending. apply merge_sort_Permutation. Qed.

Lemma elem_of_select_pending n d r :
  r ∈ sql_select_pending n d <->
  r ∈ sync_queue d /\ (retry_count r < n)%Z.
Proof.
  rewrite select_pending_perm, list_elem_of_filter. tauto.
Qed.


Lemma select_pending_NoDup n d :
  NoDup (id <$> sync_queue d) -> NoDup (id <$> sql_select_pending n d).
Proof.
  intros Hnd. rewrite select_pending_perm.
  eapply sublist_NoDup; [exact Hnd|apply fmap_sublist, sublist_filter].
Qed.

Section Pass.

Variable E : Env.

Lemma db_all_fetch {Row} (query : Tables -> list Row) st :
  db_fault E (db_calls st) = None ->
  exists st1,
    db_all E query st = (Resolve (query (db st)), st1)
    /\ db st1 = db st /\ requests st1 = requests st
    /\ console st1 = console st /\ uuids st1 = uuids st
    /\ dates st1 = dates st /\ db_calls st1 = S (db_calls st).
Proof.
  intros Hok. unfold db_all, db_statement. rewrite Hok. simpl.
  eexists. split; [done|]. by destruct st as [[] ? ? ? ? ?].
Qed.

Lemma db_all_fault {Row} (query : Tables -> list Row) st msg :
  db_fault E (db_calls st) = Some msg ->
  exists st1,
    db_all E query st = (Reject (Error_ msg), st1)
    /\ db st1 = db st /\ requests st1 = requests st
    /\ console st1 = console st.
Proof.
  intros Hf. unfold db_all, db_statement. rewrite Hf. by eexists.
Qed.

Lemma sync_failed_logs v fatal st :
  logs (snd (sync_failed v fatal st)) = logs st.
Proof. unfold sync_failed. cbn [snd]. apply console_error_logs. Qed.


(** C7.  A pass over a queue without pending intents answers
    [{success: true, synced_items: 0, failed_items: 0}] with the message
    ['No items to sync'], changes neither table, sends no request and
    prints nothing; a second pass right after it gives the same answer. *)
Theorem sync_nothing_pending_is_noop (st : State) :
  sql_select_pending maxRetries (db st) = [] ->
  db_fault E (db_calls st) = None ->
  db_fault E (S (db_calls st)) = None ->
  let nothing :=
    {| success := true; synced_items := 0; failed_items := 0;
       details := DetailsMessage "No items to sync" |} in
  let st1 := snd (sync E st) in
  fst (sync E st) = nothing
  /\ db st1 = db st /\ requests st1 = requests st
  /\ console st1 = console st /\ uuids st1 = uuids st
  /\ dates st1 = dates st
  /\ fst (sync E st1) = nothing
  /\ db (snd (sync E st1)) = db st.
Proof.
  intros Hempty Hf1 Hf2 nothing st1.
  assert (forall s, sql_select_pending maxRetries (db s) = [] ->
            db_fault E (db_calls s) = None ->
            fst (sync E s) = nothing
            /\ db (snd (sync E s)) = db s
            /\ requests (snd (sync E s)) = requests s
            /\ console (snd (sync E s)) = console s
            /\ uuids (snd (sync E s)) = uuids s
            /\ dates (snd (sync E s)) = dates s
            /\ db_calls (snd (sync E s)) = S (db_calls s)) as Hpass.
  { intros s Hs Hf. unfold sync.
    destruct (db_all_fetch (sql_select_pending maxRetries) s Hf)
      as (s1 & -> & Hs1). rewrite Hs. simpl. by split. }
  destruct (Hpass st Hempty Hf1) as (H1 & H2 & H3 & H4 & H5 & H6 & H7).
  fold st1 in H2, H3, H4, H5, H6, H7.
  destruct (Hpass st1) as (H1' & H2' & _).
  { by rewrite H2. } { by rewrite H7. }
  split_and!; try done. by rewrite H2'.
Qed.

(** C8.  When the statement that fetches the snapshot fails, the pass is
    reported with [success = false], both counts zero and the message of
    the storage error in [details]; no row is touched and no request
    sent. *)
Theorem sync_storage_failure_aborts (st : State) (msg : string) :
  db_fault E (db_calls st) = Some msg ->
  fst (sync E st)
  = {| success := false; synced_items := 0; failed_items := 0;
       details := DetailsError msg |}
  /\ success (fst (sync E st)) <> true
  /\ db (snd (sync E st)) = db st
  /\ requests (snd (sync E st)) = requests st
  /\ logs (snd (sync E st)) = logs st.
Proof.
  intros Hf. unfold sync.
  destruct (db_all_fault (sql_select_pending maxRetries) st msg Hf)
    as (st1 & -> & Hdb & Hreq & Hc).
  rewrite sync_failed_logs. unfold sync_failed. cbn [fst snd].
  split_and!; try done. unfold logs. by rewrite Hc.
Qed.

End Pass.


(** C7, on a run: a queue that only holds an exhausted intent. *)
Lemma sync_nothing_pending_is_noop_witness :
  let st := Example.state [] [Example.worn_out] in
  fst (sync Demo.env st)
  = {| success := true; synced_items := 0; failed_items := 0;
       details := DetailsMessage "No items to sync" |}
  /\ fst (sync Demo.env (snd (sync Demo.env st))) = fst (sync Demo.env st).
Proof.
  intros st.
  destruct (sync_nothing_pending_is_noop Demo.env st)
    as (H1 & _ & _ & _ & _ & _ & H2 & _).
  - vm_compute. reflexivity.
  - reflexivity.
  - reflexivity.
  - split; [exact H1|]. by rewrite H2, H1.
Defined.

(** C8, on a run: the storage is down and an intent is waiting. *)
Lemma sync_storage_failure_aborts_witness :
  let st := Example.state [] [Example.accepted] in
  fst (sync Demo.env_down st)
  = {| success := false; synced_items := 0; failed_items := 0;
       details :=
         DetailsError "SQLITE_CANTOPEN: unable to open database file" |}.
Proof.
  intros st.
  apply (sync_storage_failure_aborts Demo.env_down st
           "SQLITE_CANTOPEN: unable to open database file").
  reflexivity.
Defined.

(** ** A whole pass *)

Section PassResult.

Variable E : Env.


Lemma sync_loop_step_success item rest v st st1 :
  processSyncItem E item st = (Resolve tt, st1) ->
  sync_loop E (item :: rest) v st
  = sync_loop E rest (after_success v item) st1.
Proof. intros Hp. simpl. by rewrite Hp. Qed.

(** The loop over a list of intents that starts with a list the loop gets
    through. *)
Lemma sync_loop_app before rest :
  forall v st vb sb,
    sync_loop E before v st = ((vb, None), sb) ->
    sync_loop E (before ++ rest)%list v st = sync_loop E rest vb sb.
Proof.
  induction before as [|item before IH]; intros v st vb sb Hrun.
  - simpl in Hrun. by simplify_eq.
  - simpl in *.
    destruct (processSyncItem E item st) as [[[]|err] st1]; [by apply IH|].
    destruct (handleSyncError E item err st1) as [[[]|fatal] st2];
      [by apply IH|done].
Qed.

(** The loop leaves alone the records none of its intents is about. *)
Lemma sync_loop_other_tasks items :
  storage_ok E ->
  forall v st t,
    Task.id t ∉ task_id <$> items ->
    t ∈ tasks (db (snd (sync_loop E items v st))) <-> t ∈ tasks (db st).
Proof.
  intros Hok. induction items as [|item rest IH]; intros v st t Hother;
    [done|].
  rewrite fmap_cons in Hother. apply not_elem_of_cons in Hother as [Hne Hrest].
  simpl. destruct (processSyncItem E item st) as [[[]|err] st1] eqn:Hp.
  - apply processSyncItem_Resolve in Hp as [Ht _].
    rewrite IH by done. rewrite Ht. by apply update_where_other.
  - apply processSyncItem_Reject in Hp as [Hdb _]; [|done].
    destruct (handleSyncError_ok E item err st1 Hok) as (st2 & -> & _ & Ht).
    rewrite IH by done. rewrite Ht, Hdb.
    case_decide; [by apply update_where_other|done].
Qed.

(** The place of one intent in the loop: the state in which the loop
    reaches it, what its processing answers there, the state the loop goes
    on from, and its entry in the details at the end. *)
Lemma sync_loop_at before item after :
  storage_ok E ->
  forall v st,
    NoDup (id <$> (before ++ item :: after)%list) ->
    exists vb sb v' st',
      sync_loop E before v st = ((vb, None), sb)
      /\ sync_loop E (before ++ item :: after)%list v st = ((v', None), st')
      /\ ((forall s1,
             processSyncItem E item sb = (Resolve tt, s1) ->
             details_ v' !! id item = Some (DetailSuccess (task_id item))
             /\ sync_loop E (before ++ [item])%list v st
                = ((after_success vb item, None), s1)
             /\ sync_loop E after (after_success vb item) s1
                = ((v', None), st'))
          /\ (forall err s1,
                processSyncItem E item sb = (Reject err, s1) ->
                details_ v' !! id item
                = Some (DetailError (task_id item) (message err))
                /\ exists s2,
                     handleSyncError E item err s1 = (Resolve tt, s2)
                     /\ sync_loop E (before ++ [item])%list v st
                        = ((after_failure vb item err, None), s2)
                     /\ sync_loop E after (after_failure vb item err) s2
                        = ((v', None), st'))).
Proof.
  intros Hok v st Hnd.
  assert (id item ∉ id <$> after) as Hfresh.
  { rewrite fmap_app, fmap_cons in Hnd.
    apply NoDup_app in Hnd as (_ & _ & Hnd). by apply NoDup_cons in Hnd as [? _]. }
  destruct (sync_loop_complete E before Hok v st) as (vb & sb & Hb & _).
  exists vb, sb.
  destruct (sync_loop_cons E item after vb sb Hok)
    as [(s1 & Hp & Hstep & _)|(err & s1 & s2 & Hp & Hh & Hstep & _)].
  - destruct (sync_loop_complete E after Hok (after_success vb item) s1)
      as (v' & st' & Ha & _ & _ & _ & Hoff).
    exists v', st'. split; [done|].
    split; [by rewrite (sync_loop_app _ _ _ _ _ _ Hb), Hstep|].
    split; [|intros ? ? Hp'; by rewrite Hp in Hp'].
    intros s1' Hp'. rewrite Hp in Hp'. injection Hp' as <-.
    split_and!; [|rewrite (sync_loop_app _ _ _ _ _ _ Hb); simpl; by rewrite Hp
                 |done].
    rewrite Hoff by done. simpl. by rewrite lookup_insert_eq.
  - destruct (sync_loop_complete E after Hok (after_failure vb item err) s2)
      as (v' & st' & Ha & _ & _ & _ & Hoff).
    exists v', st'. split; [done|].
    split; [by rewrite (sync_loop_app _ _ _ _ _ _ Hb), Hstep|].
    split; [intros ? Hp'; by rewrite Hp in Hp'|].
    intros err' s1' Hp'. rewrite Hp in Hp'. injection Hp' as <- <-.
    split.
    + rewrite Hoff by done. simpl. by rewrite lookup_insert_eq.
    + exists s2. split_and!; [done| |done].
      rewrite (sync_loop_app _ _ _ _ _ _ Hb). simpl. by rewrite Hp, Hh.
Qed.

(** With the storage available a pass over a non-empty snapshot is its
    loop, run from the state the reading of the snapshot leaves. *)
Lemma sync_pass st :
  storage_ok E ->
  NoDup (id <$> sync_queue (db st)) ->
  sql_select_pending maxRetries (db st) <> [] ->
  let snapshot := sql_select_pending maxRetries (db st) in
  let st0 := snd (db_all E (sql_select_pending maxRetries) st) in
  exists v st',
    sync_loop E snapshot loop_start st0 = ((v, None), st')
    /\ sync E st
       = ({| success := bool_decide (errorCount v = 0%Z);
             synced_items := successCount v;
             failed_items := errorCount v;
             details := DetailsItems (details_ v) |}, st')
    /\ logs st' = (logs st ++ (processing_line <$> snapshot))%list
    /\ (forall item, item ∈ snapshot ->
          settled item (details_ v !! id item) (sync_queue (db st')))
    /\ successCount v
       = Z.of_nat (length (filter
           (fun item => is_success (details_ v !! id item)) snapshot))
    /\ errorCount v
       = Z.of_nat (length (filter
           (fun item => is_error (details_ v !! id item)) snapshot)).
Proof.
  intros Hok Hnd Hne snapshot st0. subst st0. unfold sync. fold snapshot.
  destruct (db_all_fetch E (sql_select_pending maxRetries) st (Hok _))
    as (st1 & -> & Hdb & _ & Hcon & _). fold snapshot. cbn [snd].
  rewrite decide_False by (intros Hl%nil_length_inv; by apply Hne).
  destruct (sync_loop_complete E snapshot Hok loop_start st1)
    as (v & st' & Hrun & _).
  destruct (sync_loop_settled E snapshot Hok loop_start st1 v None st')
    as (_ & Hset & Hs & He); [| |done|].
  { by apply select_pending_NoDup. }
  { intros item Hitem%elem_of_select_pending. rewrite Hdb. tauto. }
  destruct (sync_loop_logs E snapshot loop_start st1) as (n & Hlogs & Hn).
  rewrite Hrun in Hlogs, Hn. cbn [fst snd] in Hlogs, Hn.
  rewrite Hn, firstn_all in Hlogs by done.
  rewrite Hrun. exists v, st'. simpl in *.
  split_and!; try done; try lia.
  rewrite Hlogs. unfold logs. by rewrite Hcon.
Qed.


(** C2.  When the processing of an intent succeeds, every record with the
    [task_id] of the intent has [sync_status = synced] and [last_synced_at]
    set to the time read from the clock, no record is lost, the intent is
    gone from the queue and the other intents are as they were; the loop
    counts the intent as synced.  With the storage available the result of
    a pass has [success = (failed_items == 0)].  Every intent of the
    snapshot whose processing succeeds, in the state in which the pass
    reaches it, is reported as synced and is not in the queue after the
    pass, and an intent whose processing fails there is reported as
    failed; [synced_items] is the number of intents of the snapshot
    reported as synced, so it counts exactly the intents whose processing
    succeeded.  After the pass every record with the [task_id] of such an
    intent is [synced] with the time read when the intent was processed,
    unless a later intent of the snapshot is about the same record. *)
Theorem sync_success_marks_synced_and_dequeues :
  (forall item st st1,
     processSyncItem E item st = (Resolve tt, st1) ->
     (forall t, t ∈ tasks (db st1) -> Task.id t = task_id item ->
        Task.sync_status t = synced
        /\ Task.last_synced_at t = Some (Date_toISOString E (dates st)))
     /\ Task.id <$> tasks (db st1) = Task.id <$> tasks (db st)
     /\ (id item ∉ id <$> sync_queue (db st1))
     /\ (forall r, id r <> id item ->
           r ∈ sync_queue (db st1) <-> r ∈ sync_queue (db st))
     /\ forall rest v,
          sync_loop E (item :: rest) v st
          = sync_loop E rest (after_success v item) st1)
  /\ (storage_ok E ->
      forall st,
        NoDup (id <$> sync_queue (db st)) ->
        let snapshot := sql_select_pending maxRetries (db st) in
        let st0 := snd (db_all E (sql_select_pending maxRetries) st) in
        let res := fst (sync E st) in
        success res = bool_decide (failed_items res = 0%Z)
        /\ (snapshot <> [] ->
            exists d,
              details res = DetailsItems d
              /\ synced_items res
                 = Z.of_nat (length (filter
                     (fun item => is_success (d !! id item)) snapshot))
              /\ failed_items res
                 = Z.of_nat (length (filter
                     (fun item => is_error (d !! id item)) snapshot))
              /\ (forall item, item ∈ snapshot ->
                   is_success (d !! id item) ->
                   id item ∉ id <$> sync_queue (db (snd (sync E st))))
              /\ forall before item after,
                   snapshot = (before ++ item :: after)%list ->
                   let reached := snd (sync_loop E before loop_start st0) in
                   (forall s1,
                      processSyncItem E item reached = (Resolve tt, s1) ->
                      d !! id item = Some (DetailSuccess (task_id item))
                      /\ (id item ∉ id <$> sync_queue (db (snd (sync E st))))
                      /\ snd (sync_loop E (before ++ [item])%list loop_start
                                st0) = s1
                      /\ snd (sync E st)
                         = snd (sync_loop E after
                                  (fst (fst (sync_loop E
                                               (before ++ [item])%list
                                               loop_start st0))) s1)
                      /\ (task_id item ∉ task_id <$> after ->
                          forall t, t ∈ tasks (db (snd (sync E st))) ->
                            Task.id t = task_id item ->
                            Task.sync_status t = synced
                            /\ Task.last_synced_at t
                               = Some (Date_toISOString E (dates reached))))
                   /\ (forall err s1,
                         processSyncItem E item reached = (Reject err, s1) ->
                         d !! id item
                         = Some (DetailError (task_id item) (message err))))).
Proof.
  split.
  - intros item st st1 Hp.
    destruct (processSyncItem_Resolve E item st tt st1 Hp) as [Ht Hq].
    split_and!.
    + intros t Hin Hid. rewrite Ht in Hin.
      apply elem_of_update_where in Hin as (t0 & _ & ->).
      by case_decide.
    + rewrite Ht. by apply update_where_key.
    + rewrite Hq. intros (r & Hr & Hin)%list_elem_of_fmap.
      apply list_elem_of_filter in Hin as [Hne _]. done.
    + intros r Hr. rewrite Hq, list_elem_of_filter. tauto.
    + intros rest v. by apply sync_loop_step_success.
  - intros Hok st Hnd snapshot st0 res.
    destruct (decide (snapshot = [])) as [Hempty|Hne].
    + split; [|done]. subst res. unfold sync.
      destruct (db_all_fetch E (sql_select_pending maxRetries) st (Hok _))
        as (st1 & -> & _). fold snapshot. by rewrite Hempty.
    + subst res.
      destruct (sync_pass st Hok Hnd Hne)
        as (v & st' & Hloop & -> & _ & Hset & Hs & He).
      fold snapshot st0 in Hloop, Hset, Hs, He.
      cbn [fst snd details synced_items failed_items success].
      split; [done|]. intros _. exists (details_ v).
      split_and!; try done.
      * intros item Hitem Hsucc. specialize (Hset item Hitem).
        unfold settled in Hset.
        destruct (details_ v !! id item) as [[taskId|taskId msg]|];
          [|done..].
        by destruct Hset as [_ ?].
      * intros before item after Hsplit.
        assert (item ∈ snapshot) as Hitem.
        { rewrite Hsplit. apply elem_of_app. right. left. }
        destruct (sync_loop_at before item after Hok loop_start st0)
          as (vb & sb & v' & st'' & Hb & Hall & Hres & Hrej).
        { rewrite <- Hsplit. by apply select_pending_NoDup. }
        rewrite <- Hsplit, Hloop in Hall. injection Hall as <- <-.
        rewrite Hb. cbn [snd].
        split; [|intros err s1 Hp; by destruct (Hrej err s1 Hp)].
        intros s1 Hp. destruct (Hres s1 Hp) as (Hd & Hmid & Hafter).
        rewrite Hmid. cbn [fst snd]. rewrite Hafter. cbn [snd].
        split; [done|]. split.
        { specialize (Hset item Hitem). rewrite Hd in Hset.
          by destruct Hset as [_ ?]. }
        split; [done|]. split; [done|].
        intros Hnot t Hin Hid.
        {
           replace st' with
             (snd (sync_loop E after (after_success vb item) s1)) in Hin
             by (by rewrite Hafter).
           apply sync_loop_other_tasks in Hin; [|done|by rewrite Hid].
           apply processSyncItem_Resolve in Hp as [Ht _].
           rewrite Ht in Hin.
           apply elem_of_update_where in Hin as (t0 & _ & ->).
           by destruct (decide (Task.id t0 = task_id item)). }
Qed.

End PassResult.

(** ** Forced failures *)

Section Forced.

Variable E : Env.



End Forced.

(** ** Resetting exhausted intents *)

Lemma filter_ext_in {A} (P Q : A -> Prop) `{!forall x, Decision (P x)}
    `{!forall x, Decision (Q x)} (l : list A) :
  (forall x, x ∈ l -> P x <-> Q x) -> filter P l = filter Q l.
Proof.
  induction l as [|x l IH]; intros Hpq; [done|].
  assert (filter P l = filter Q l) as Hl.
  { apply IH. intros y Hy. apply Hpq. by right. }
  destruct (decide (P x)) as [Hx|Hx].
  - rewrite !filter_cons_True, Hl; [done| |done]. apply Hpq; [by left|done].
  - rewrite !filter_cons_False, Hl; [done| |done].
    intros Hq. apply Hx, Hpq; [by left|done].
Qed.

Lemma filter_none {A} (P : A -> Prop) `{!forall x, Decision (P x)}
    (l : list A) :
  (forall x, x ∈ l -> ~ P x) -> filter P l = [].
Proof.
  induction l as [|x l IH]; intros Hno; [done|].
  rewrite filter_cons_False by (apply Hno; by left).
  apply IH. intros y Hy. apply Hno. by right.
Qed.

Lemma filter_all {A} (P : A -> Prop) `{!forall x, Decision (P x)}
    (l : list A) :
  (forall x, x ∈ l -> P x) -> filter P l = l.
Proof.
  induction l as [|x l IH]; intros Hall; [done|].
  rewrite filter_cons_True by (apply Hall; by left).
  f_equal. apply IH. intros y Hy. apply Hall. by right.
Qed.


Lemma update_where_none {A} (P : A -> Prop) `{!forall x, Decision (P x)}
    (set : A -> A) (rows : list A) :
  (forall r, r ∈ rows -> ~ P r) -> update_where P set rows = rows.
Proof.
  intros Hno. unfold update_where. rewrite <- (list_fmap_id rows) at 2.
  apply list_fmap_ext. intros k r Hr%list_elem_of_lookup_2.
  rewrite decide_False; [done|by apply Hno].
Qed.

Lemma set_reset_pending r : ~ exhausted (set_reset r).
Proof. unfold exhausted, maxRetries. simpl. lia. Qed.

(** Resetting the exhausted intent named [i], then those named in [rest],
    is resetting those named in [i :: rest]. *)
Lemma reset_in_cons i rest queue :
  update_where (fun r => id r ∈ rest /\ exhausted r) set_reset
    (update_where (fun r => id r = i /\ exhausted r) set_reset queue)
  = update_where (fun r => id r ∈ i :: rest /\ exhausted r) set_reset queue.
Proof.
  unfold update_where. rewrite <- list_fmap_compose. apply list_fmap_ext.
  intros k r _. simpl. pose proof (set_reset_pending r).
  repeat case_decide; try done; rewrite ?elem_of_cons in *;
    exfalso; simpl in *; intuition congruence.
Qed.

Lemma names_exhausted_cons r queue i :
  names_exhausted (r :: queue) i <->
  (id r = i /\ exhausted r) \/ names_exhausted queue i.
Proof. unfold names_exhausted. apply Exists_cons. Qed.

Lemma names_exhausted_elem queue i :
  names_exhausted queue i -> i ∈ id <$> queue.
Proof.
  intros (r & Hr & <- & _)%Exists_exists. apply list_elem_of_fmap. by exists r.
Qed.

(** The rows reset for [i :: rest] are the row named [i], if it is
    exhausted, and the rows reset for [rest] once that one is reset. *)
Lemma changes_in_cons i rest queue :
  NoDup (id <$> queue) ->
  changes_where (fun r => id r ∈ i :: rest /\ exhausted r) queue
  = (changes_where (fun r => id r ∈ rest /\ exhausted r)
       (update_where (fun r => id r = i /\ exhausted r) set_reset queue)
     + (if decide (names_exhausted queue i) then 1 else 0))%Z.
Proof.
  unfold changes_where. induction queue as [|r queue IH]; intros Hnd.
  - by rewrite decide_False by (by intros ?%Exists_nil).
  - rewrite fmap_cons in Hnd. apply NoDup_cons in Hnd as [Hfresh Hnd].
    specialize (IH Hnd). unfold update_where in *. rewrite fmap_cons.
    destruct (decide (id r = i /\ exhausted r)) as [[Hi Hex]|Hno].
    + rewrite filter_cons_True by (rewrite elem_of_cons; tauto).
      rewrite filter_cons_False by (intros [_ ?]; by eapply set_reset_pending).
      rewrite (decide_True (P := names_exhausted (r :: queue) i))
        by (apply names_exhausted_cons; by left).
      rewrite decide_False in IH
        by (intros ?%names_exhausted_elem; by rewrite Hi in Hfresh).
      cbn [length]. lia.
    + assert ((id r ∈ i :: rest /\ exhausted r)
              <-> (id r ∈ rest /\ exhausted r)) as Hiff.
      { rewrite elem_of_cons. tauto. }
      assert (names_exhausted (r :: queue) i <-> names_exhausted queue i)
        as Hnames.
      { rewrite names_exhausted_cons. tauto. }
      destruct (decide (id r ∈ rest /\ exhausted r)) as [Hr|Hr].
      * rewrite !filter_cons_True by tauto. cbn [length].
        destruct (decide (names_exhausted queue i));
          [rewrite decide_True by tauto|rewrite decide_False by tauto]; lia.
      * rewrite !filter_cons_False by tauto.
        destruct (decide (names_exhausted queue i));
          [rewrite decide_True by tauto|rewrite decide_False by tauto]; lia.
Qed.

(** The batched [UPDATE] of [retryFailed] and the one-at-a-time reading of
    the spec agree, on the queue and on the tally. *)
Lemma retry_selected_spec_batched ids :
  forall queue,
    NoDup (id <$> queue) ->
    retry_selected_spec ids queue
    = (let changes :=
         changes_where (fun r => id r ∈ ids /\ exhausted r) queue in
       {| retried := changes; failed := Z.of_nat (length ids) - changes |},
       update_where (fun r => id r ∈ ids /\ exhausted r) set_reset queue).
Proof.
  induction ids as [|i rest IH]; intros queue Hnd.
  - simpl. unfold changes_where.
    rewrite update_where_none by (intros r _ [?%elem_of_nil _]; done).
    by rewrite filter_none by (intros r _ [?%elem_of_nil _]; done).
  - cbn [retry_selected_spec].
    set (queue1 := update_where (fun r => id r = i /\ exhausted r)
                     set_reset queue).
    assert (NoDup (id <$> queue1)) as Hnd1.
    { unfold queue1. by rewrite update_where_key. }
    rewrite (changes_in_cons i rest queue Hnd), <- reset_in_cons.
    fold queue1. cbn [length]. case_decide as Hi.
    + rewrite (IH queue1 Hnd1). cbn zeta. f_equal. f_equal; simpl; lia.
    + assert (queue1 = queue) as ->.
      { apply update_where_none. intros r Hr Hp. apply Hi.
        apply Exists_exists. by exists r. }
      rewrite (IH queue Hnd). cbn zeta. f_equal. f_equal; simpl; lia.
Qed.

(** For distinct ids the rows reset are as many as the ids that name an
    exhausted intent. *)
Lemma changes_in_count ids :
  forall queue,
    NoDup ids -> NoDup (id <$> queue) ->
    changes_where (fun r => id r ∈ ids /\ exhausted r) queue
    = Z.of_nat (length (filter (names_exhausted queue) ids)).
Proof.
  induction ids as [|i rest IH]; intros queue Hids Hnd.
  - unfold changes_where.
    by rewrite filter_none by (intros r _ [?%elem_of_nil _]; done).
  - apply NoDup_cons in Hids as [Hi Hrest].
    rewrite changes_in_cons by done.
    set (queue1 := update_where (fun r => id r = i /\ exhausted r)
                     set_reset queue).
    assert (NoDup (id <$> queue1)) as Hnd1.
    { unfold queue1. by rewrite update_where_key. }
    rewrite (IH queue1) by done.
    assert (filter (names_exhausted queue1) rest
            = filter (names_exhausted queue) rest) as ->.
    { apply filter_ext_in. intros j Hj.
      assert (j <> i) as Hji by (by intros ->).
      unfold names_exhausted, queue1. rewrite !Exists_exists. split.
      - intros (r' & (r & Hr & ->)%elem_of_update_where & Hid & Hex).
        exists r. case_decide as Hd; [|done].
        destruct Hd as [Hd _]. simpl in Hid. congruence.
      - intros (r & Hr & Hid & Hex). exists r. split; [|done].
        apply elem_of_update_where. exists r. split; [done|].
        rewrite decide_False; [done|]. intros [? _]. congruence. }
    rewrite filter_cons. case_decide; cbn [length]; lia.
Qed.

Section Administration.

Variable E : Env.

Lemma db_run_ok stmt st :
  db_fault E (db_calls st) = None ->
  exists st',
    db_run E stmt st = (Resolve (snd (stmt (db st))), st')
    /\ db st' = fst (stmt (db st)) /\ requests st' = requests st
    /\ console st' = console st.
Proof.
  intros Hok. unfold db_run, db_statement. rewrite Hok. simpl.
  destruct (stmt (db st)) as [d changes]. simpl. by eexists.
Qed.

(** C5.  [retryAllFailed] resets ([retry_count = 0], [error_message =
    null]) exactly the intents with [retry_count >= MAX_RETRIES];
    [retryFailed ids] resets exactly those of them whose id is among
    [ids]; both leave every other intent, and every record, as it was.
    The tally of [retryFailed] is that of taking the supplied ids one at a
    time, an id naming an exhausted intent being reset and counted as
    retried and every other id as failed; for distinct ids, [retried] is
    the number of ids that name an exhausted intent and [failed] the
    number of ids that do not. *)
Theorem retry_resets_only_exhausted_intents (st : State) :
  db_fault E (db_calls st) = None ->
  let queue := sync_queue (db st) in
  (exists st',
     retryAllFailed E st
     = (Resolve {| retried := changes_where exhausted queue; failed := 0 |},
        st')
     /\ sync_queue (db st') = update_where exhausted set_reset queue
     /\ tasks (db st') = tasks (db st))
  /\ (forall ids, exists res st',
        retryFailed E ids st = (Resolve res, st')
        /\ sync_queue (db st')
           = update_where (fun r => id r ∈ ids /\ exhausted r) set_reset queue
        /\ tasks (db st') = tasks (db st)
        /\ (forall r, r ∈ queue -> ~ exhausted r -> r ∈ sync_queue (db st'))
        /\ (NoDup (id <$> queue) ->
            (res, sync_queue (db st')) = retry_selected_spec ids queue
            /\ (NoDup ids ->
                retried res
                = Z.of_nat (length (filter (names_exhausted queue) ids))
                /\ failed res
                   = Z.of_nat (length (filter
                       (fun i => ~ names_exhausted queue i) ids)))))
  /\ (forall r, retry_count (set_reset r) = 0%Z
                /\ error_message (set_reset r) = None
                /\ id (set_reset r) = id r /\ task_id (set_reset r) = task_id r
                /\ operation (set_reset r) = operation r
                /\ data (set_reset r) = data r).
Proof.
  intros Hok queue. split_and!.
  - unfold retryAllFailed, try_catch, bind.
    destruct (db_run_ok (sql_reset_all_failed maxRetries) st Hok)
      as (st' & -> & Hdb & _).
    exists st'. by rewrite Hdb.
  - intros ids.
    assert (exists st',
      retryFailed E ids st
      = (Resolve
           {| retried :=
                changes_where (fun r => id r ∈ ids /\ exhausted r) queue;
              failed :=
                Z.of_nat (length ids)
                - changes_where (fun r => id r ∈ ids /\ exhausted r) queue |},
         st')
      /\ sync_queue (db st')
         = update_where (fun r => id r ∈ ids /\ exhausted r) set_reset queue
      /\ tasks (db st') = tasks (db st)) as (st' & Hrun & Hq & Ht).
    { unfold retryFailed, try_catch, bind. case_decide as Hlen.
      - apply nil_length_inv in Hlen as ->. exists st. unfold ret.
        unfold changes_where.
        rewrite filter_none by (intros r _ [?%elem_of_nil _]; done).
        rewrite update_where_none by (intros r _ [?%elem_of_nil _]; done).
        done.
      - destruct (db_run_ok (sql_reset_failed_in ids maxRetries) st Hok)
          as (st' & -> & Hdb & _).
        exists st'. by rewrite Hdb. }
    eexists _, st'. split; [exact Hrun|]. split_and!; try done.
    + intros r Hr Hpending. rewrite Hq. apply elem_of_update_where.
      exists r. split; [done|]. rewrite decide_False; tauto.
    + intros Hnd. split.
      * by rewrite Hq, retry_selected_spec_batched.
      * intros Hids. simpl.
        rewrite (changes_in_count ids queue Hids Hnd). split; [done|].
        pose proof (filter_app_complement (names_exhausted queue) ids) as Hc.
        apply Permutation_length in Hc. rewrite length_app in Hc. lia.
  - done.
Qed.

End Administration.

(** C5, on the example of the spec: of the two supplied ids only the second
    names an exhausted intent. *)
Lemma retry_resets_only_exhausted_intents_witness :
  let st :=
    {| db := {| tasks := [];
                sync_queue :=
                  [ {| id := "id_pending"; task_id := "t0";
                       operation := "update"; data := "{}";
                       created_at := "2024-05-01T09:00:00.000Z";
                       retry_count := 1; error_message := Some "down";
                       updated_at := None |};
                    {| id := "id_failed"; task_id := "t1";
                       operation := "create"; data := "{}";
                       created_at := "2024-05-01T09:00:01.000Z";
                       retry_count := 3; error_message := Some "down";
                       updated_at := None |} ] |};
       requests := []; console := []; uuids := 0; dates := 0;
       db_calls := 0 |} in
  exists res st',
    retryFailed Demo.env ["id_pending"; "id_failed"] st = (Resolve res, st')
    /\ retried res = 1%Z /\ failed res = 1%Z
    /\ retry_count <$> sync_queue (db st') = [1%Z; 0%Z].
Proof.
  intros st.
  destruct (retry_resets_only_exhausted_intents Demo.env st eq_refl)
    as (_ & Hsel & _).
  destruct (Hsel ["id_pending"; "id_failed"])
    as (res & st' & Hrun & Hq & _ & _ & Hspec).
  exists res, st'. split; [exact Hrun|].
  destruct Hspec as [_ Htally].
  { apply (bool_decide_unpack _). vm_compute. exact I. }
  destruct Htally as [-> ->].
  { apply (bool_decide_unpack _). vm_compute. exact I. }
  rewrite Hq. vm_compute. done.
Defined.

(** ** Listing the queue *)

Section Listing.

Variable E : Env.

Lemma limit_offset_all {A} (limit offset : Z) (rows : list A) :
  (offset <= 0)%Z ->
  (limit < 0 \/ Z.of_nat (length rows) <= limit)%Z ->
  limit_offset limit offset rows = rows.
Proof.
  intros Hoff Hlim. unfold limit_offset.
  replace (Z.to_nat offset) with 0 by lia. rewrite drop_0.
  case_decide; [done|]. apply take_ge. lia.
Qed.



End Listing.

(** ** Record mutations *)

Lemma select_task_update i (set : Task.t -> Task.t) (rows : list Task.t) :
  (forall t, Task.id (set t) = Task.id t) ->
  (forall t, Task.is_deleted (set t) = Task.is_deleted t) ->
  filter (fun t => Task.id t = i /\ Task.is_deleted t = false)
    (update_where (fun t => Task.id t = i) set rows)
  = set <$> filter (fun t => Task.id t = i /\ Task.is_deleted t = false) rows.
Proof.
  intros Hid Hdel. unfold update_where.
  induction rows as [|t rows IH]; [done|].
  rewrite fmap_cons.
  destruct (decide (Task.id t = i /\ Task.is_deleted t = false)) as [Ht|Ht].
  - rewrite decide_True by tauto.
    rewrite (filter_cons_True _ (set t)) by (by rewrite Hid, Hdel).
    rewrite (filter_cons_True _ t) by done. by rewrite fmap_cons, IH.
  - rewrite (filter_cons_False _ t) by done. rewrite <- IH.
    apply filter_cons_False. case_decide; [|done]. by rewrite Hid, Hdel.
Qed.

Section Mutations.

Variable E : Env.

(** C4, in the form the code satisfies. With the storage available, each of
    [createTask], [updateTask] and [deleteTask] (the last two on a record that
    exists) appends exactly one intent to the queue, with [retry_count = 0]
    and [error_message = null]. The payload of a create and of an update is
    the serialized record as the mutation leaves it; the payload of a delete
    is the serialized record as it was read before the soft delete
    ([is_deleted = false]), while the stored record is then deleted. *)
Theorem mutation_enqueues_one_intent :
  storage_ok E ->
  (forall taskData st, exists task st',
      createTask E taskData st = (Resolve task, st')
      /\ tasks (db st') = (tasks (db st) ++ [task])%list
      /\ sync_queue (db st')
         = (sync_queue (db st)
            ++ [new_intent E (S (uuids st)) (S (dates st))
                  (Task.id task) "create" task])%list)
  /\ (forall i updates st existing,
        head (sql_select_task i (db st)) = Some existing ->
        exists updated st',
          updateTask E i updates st = (Resolve (Some updated), st')
          /\ updated
             = set_task_fields
                 (default (Task.title existing) (p_title updates))
                 (default (Task.description existing) (p_description updates))
                 (default (Task.completed existing) (p_completed updates))
                 (Date_toISOString E (dates st)) pending existing
          /\ head (sql_select_task i (db st')) = Some updated
          /\ sync_queue (db st')
             = (sync_queue (db st)
                ++ [new_intent E (uuids st) (S (dates st)) i "update"
                      updated])%list)
  /\ (forall i st existing,
        head (sql_select_task i (db st)) = Some existing ->
        exists st',
          deleteTask E i st = (Resolve true, st')
          /\ tasks (db st')
             = update_where (fun t => Task.id t = i)
                 (set_task_deleted true (Date_toISOString E (dates st))
                    pending) (tasks (db st))
          /\ sync_queue (db st')
             = (sync_queue (db st)
                ++ [new_intent E (uuids st) (S (dates st)) i "delete"
                      existing])%list
          /\ Task.is_deleted existing = false
          /\ forall t, t ∈ tasks (db st') -> Task.id t = i ->
                       Task.is_deleted t = true).
Proof.
  intros Hok. split_and!.
  - intros taskData st.
    unfold createTask, addToSyncQueue, bind, ret, new_uuid,
      new_Date_toISOString, db_run, db_statement, set_db.
    simpl. repeat (rewrite Hok; simpl). by eexists _, _.
  - intros i updates st existing Hhead.
    unfold updateTask, getTask, addToSyncQueue, bind, ret, new_uuid,
      new_Date_toISOString, db_run, db_get, db_statement, set_db.
    simpl. repeat (rewrite Hok; simpl). rewrite Hhead. simpl.
    repeat (rewrite Hok; simpl).
    unfold sql_select_task in *. simpl.
    rewrite select_task_update by done.
    destruct (filter _ (tasks (db st))) as [|t0 rows] eqn:Hrows;
      simplify_eq/=.
    repeat (rewrite Hok; simpl). eexists _, _.
    split; [reflexivity|]. split; [done|]. split; [|done]. simpl.
    by rewrite select_task_update, Hrows.
  - intros i st existing Hhead.
    unfold deleteTask, getTask, addToSyncQueue, bind, ret, new_uuid,
      new_Date_toISOString, db_run, db_get, db_statement, set_db.
    simpl. repeat (rewrite Hok; simpl). rewrite Hhead. simpl.
    repeat (rewrite Hok; simpl).
    eexists. split_and!; try done.
    + apply head_Some_elem_of in Hhead. unfold sql_select_task in Hhead.
      apply list_elem_of_filter in Hhead. tauto.
    + intros t (t0 & _ & ->)%elem_of_update_where Hid.
      case_decide as Hd; [done|]. by destruct Hd.
Qed.

(** C9, in the form the code satisfies. A record answered by the creation
    route has the title of the request, which is not empty, and a request
    whose title is missing or empty is refused with status 400 before anything
    is created; [createTask] itself takes the empty string for a missing or
    empty title. *)
Theorem created_task_title (body : PartialTask) (st : State) :
  (forall task,
      res_body (fst (createTaskRouter_post E body st)) = body_task task ->
      Task.title task <> ""
      /\ p_title body = Some (Task.title task)
      /\ res_status (fst (createTaskRouter_post E body st)) = 201%Z)
  /\ (truthy (p_title body) = false ->
      createTaskRouter_post E body st
      = ({| res_status := 400; res_body := body_error "Title is required" |},
         st))
  /\ (forall task st',
        createTask E body st = (Resolve task, st') ->
        Task.title task = or_else (p_title body) "").
Proof.
  split_and!.
  - intros task. unfold createTaskRouter_post.
    destruct (truthy (p_title body)) eqn:Htruthy; simpl; [|done].
    unfold createTask, addToSyncQueue, bind, ret, new_uuid,
      new_Date_toISOString, db_run, db_statement, set_db. simpl.
    unfold truthy in Htruthy. destruct (p_title body) as [s|]; [|done].
    apply negb_true_iff, bool_decide_eq_false in Htruthy.
    repeat (case_match; simplify_eq/=; try done).
    all: by intros [= <-].
  - intros Hfalsy. unfold createTaskRouter_post. by rewrite Hfalsy.
  - intros task st'.
    unfold createTask, addToSyncQueue, bind, ret, new_uuid,
      new_Date_toISOString, db_run, db_statement, set_db. simpl.
    intros H. repeat (case_match; simplify_eq/=; try done).
Qed.

End Mutations.

(** ** The theorems on runs of the concrete environment *)

Lemma Demo_storage_ok : storage_ok Demo.env.
Proof. by intros k. Qed.


(** C2, on a run: an accepted creation marks its record synced, stamped
    with the time of the clock, and leaves the queue; the pass reports it
    as synced and counts it. *)
Lemma sync_success_marks_synced_and_dequeues_witness :
  let st := Example.state [Example.task "t2" "Buy milk" pending]
              [Example.accepted] in
  let st1 := snd (processSyncItem Demo.env Example.accepted st) in
  (forall t, t ∈ tasks (db st1) -> Task.id t = "t2" ->
     Task.sync_status t = synced
     /\ Task.last_synced_at t = Some "2024-05-01T10:00:00.000Z")
  /\ ("q2" ∉ id <$> sync_queue (db st1))
  /\ success (fst (sync Demo.env st))
     = bool_decide (failed_items (fst (sync Demo.env st)) = 0%Z)
  /\ (exists d,
        details (fst (sync Demo.env st)) = DetailsItems d
        /\ d !! "q2" = Some (DetailSuccess "t2"))
  /\ synced_items (fst (sync Demo.env st)) = 1%Z
  /\ ("q2" ∉ id <$> sync_queue (db (snd (sync Demo.env st))))
  /\ (forall t, t ∈ tasks (db (snd (sync Demo.env st))) ->
        Task.id t = "t2" ->
        Task.sync_status t = synced
        /\ Task.last_synced_at t = Some "2024-05-01T10:00:00.000Z").
Proof.
  intros st st1.
  destruct (sync_success_marks_synced_and_dequeues Demo.env)
    as [Hstep Hpass].
  destruct (Hstep Example.accepted st st1 eq_refl)
    as (Htask & _ & Hgone & _).
  split; [exact Htask|]. split; [exact Hgone|].
  destruct (Hpass Demo_storage_ok st) as [Hflag Hrun].
  { apply (bool_decide_unpack _). vm_compute. exact I. }
  split; [exact Hflag|].
  destruct Hrun as (d & Hd & Hcount & _ & _ & Hat).
  { vm_compute. discriminate. }
  destruct (Hat [] Example.accepted []) as [Hok _].
  { vm_compute. reflexivity. }
  destruct (Hok (snd (processSyncItem Demo.env Example.accepted
                        (snd (db_all Demo.env
                                (sql_select_pending maxRetries) st)))))
    as (Hentry & Hout & _ & _ & Hrecord).
  { vm_compute. reflexivity. }
  split; [exists d; split; [exact Hd|exact Hentry]|].
  split; [|split; [exact Hout|]].
  - rewrite Hcount.
    change (sql_select_pending maxRetries (db st))
      with (merge_sort created_asc
              (filter (fun r => (retry_count r < maxRetries)%Z)
                 [Example.accepted])).
    replace (merge_sort created_asc
               (filter (fun r => (retry_count r < maxRetries)%Z)
                  [Example.accepted])) with [Example.accepted]
      by (vm_compute; reflexivity).
    rewrite filter_cons_True by (rewrite Hentry; exact I).
    reflexivity.
  - apply Hrecord. intros Hin. inversion Hin.
Defined.


(** C3.  The status filter of the listing is not the one of the counts
    and of the resets.  An update the remote API answers with a 409 is left
    by one pass in the queue with [retry_count = 1] and its message.  On
    that queue [status=failed] lists the intent and [status=pending] lists
    nothing, while the intent is not exhausted: the next pass takes it,
    [getPendingSyncCount] counts it, [getFailedSyncCount] counts nothing,
    and [retryAllFailed] and [retryFailed] reset nothing. *)
Theorem getSyncQueue_status_filter_diverges :
  let update :=
    Example.intent "q4" "t4" "update" (JObject [])
      "2024-05-01T09:00:04.000Z" 0 None in
  let st := snd (sync Demo.env
                   (Example.state [Example.task "t4" "Call home" pending]
                      [update])) in
  let listing status :=
    fst (getSyncQueue Demo.env
           {| limit := 50; offset := 0; status := Some status |} st) in
  (fun r => (id r, retry_count r, error_message r)) <$> sync_queue (db st)
  = [("q4", 1%Z, Some "API Error: Conflict")]
  /\ (exists l, listing "failed" = Resolve l /\ id <$> l = ["q4"])
  /\ listing "pending" = Resolve []
  /\ id <$> sql_select_pending maxRetries (db st) = ["q4"]
  /\ fst (getPendingSyncCount Demo.env st) = Resolve 1%Z
  /\ fst (getFailedSyncCount Demo.env st) = Resolve 0%Z
  /\ fst (retryAllFailed Demo.env st)
     = Resolve {| retried := 0; failed := 0 |}
  /\ fst (retryFailed Demo.env ["q4"] st)
     = Resolve {| retried := 0; failed := 1 |}.
Proof.
  vm_compute. split; [reflexivity|]. split; [eexists; split; reflexivity|].
  repeat split; congruence.
Qed.


(** C4 does not hold as the spec states it. After [deleteTask] the stored
    record is deleted, stamped with the time of the deletion, and the payload
    of the enqueued intent is not that record: it is the record as it was
    before the deletion. *)
Lemma deleteTask_payload_counterexample :
  let before := Example.task "t1" "Pay rent" synced in
  let st := Example.state [before] [] in
  let st' := snd (deleteTask Demo.env "t1" st) in
  fst (deleteTask Demo.env "t1" st) = Resolve true
  /\ Task.is_deleted <$> tasks (db st') = [true]
  /\ data <$> sync_queue (db st')
     <> (fun t => JSON_stringify Demo.env (Task_to_json t)) <$> tasks (db st')
  /\ data <$> sync_queue (db st')
     = [JSON_stringify Demo.env (Task_to_json before)].
Proof. vm_compute. repeat split; congruence. Qed.

(** C4, on a run: the update of a record enqueues the record
    as updated, its deletion the record as it was. *)
Lemma mutation_enqueues_one_intent_witness :
  let before := Example.task "t1" "Pay rent" synced in
  let st := Example.state [before] [] in
  storage_ok Demo.env
  /\ (exists updated st',
        updateTask Demo.env "t1"
          {| p_title := Some "Pay the rent"; p_description := None;
             p_completed := Some true |} st
        = (Resolve (Some updated), st')
        /\ head (sql_select_task "t1" (db st')) = Some updated
        /\ data <$> sync_queue (db st')
           = [JSON_stringify Demo.env (Task_to_json updated)])
  /\ (exists st',
        deleteTask Demo.env "t1" st = (Resolve true, st')
        /\ data <$> sync_queue (db st')
           = [JSON_stringify Demo.env (Task_to_json before)]).
Proof.
  intros before st.
  destruct (mutation_enqueues_one_intent Demo.env Demo_storage_ok)
    as (_ & Hupdate & Hdelete).
  split; [exact Demo_storage_ok|]. split.
  - destruct (Hupdate "t1"
                {| p_title := Some "Pay the rent"; p_description := None;
                   p_completed := Some true |} st before eq_refl)
      as (updated & st' & Hrun & _ & Hstored & Hq).
    exists updated, st'. split; [exact Hrun|]. split; [exact Hstored|].
    rewrite Hq. reflexivity.
  - destruct (Hdelete "t1" st before eq_refl) as (st' & Hrun & _ & Hq & _).
    exists st'. split; [exact Hrun|]. rewrite Hq. reflexivity.
Defined.

(** C9 does not hold as the spec states it. [createTask] called without a
    title, or with an empty one, creates a record whose title is the empty
    string. *)
Lemma createTask_empty_title_counterexample :
  let untitled :=
    {| p_title := None; p_description := Some "no title";
       p_completed := None |} in
  let blank :=
    {| p_title := Some ""; p_description := None; p_completed := None |} in
  (exists task,
      fst (createTask Demo.env untitled Demo.empty) = Resolve task
      /\ Task.title task = "")
  /\ Task.title <$> tasks (db (snd (createTask Demo.env untitled Demo.empty)))
     = [""]
  /\ Task.title <$> tasks (db (snd (createTask Demo.env blank Demo.empty)))
     = [""].
Proof.
  split; [|split].
  - eexists. split; [vm_compute; reflexivity|reflexivity].
  - vm_compute. reflexivity.
  - vm_compute. reflexivity.
Qed.

(** C9, on a run: the route creates the titled record and
    refuses the untitled one. *)
Lemma created_task_title_witness :
  let titled :=
    {| p_title := Some "Buy milk"; p_description := None;
       p_completed := None |} in
  let untitled :=
    {| p_title := None; p_description := Some "no title";
       p_completed := None |} in
  (forall task,
      res_body (fst (createTaskRouter_post Demo.env titled Demo.empty))
      = body_task task ->
      Task.title task = "Buy milk")
  /\ res_status (fst (createTaskRouter_post Demo.env untitled Demo.empty))
     = 400%Z
  /\ snd (createTaskRouter_post Demo.env untitled Demo.empty) = Demo.empty.
Proof.
  intros titled untitled. split; [|split].
  - intros task Hbody.
    destruct (created_task_title Demo.env titled Demo.empty) as (Hroute & _).
    destruct (Hroute task Hbody) as (_ & Htitle & _).
    by injection Htitle as <-.
  - destruct (created_task_title Demo.env untitled Demo.empty)
      as (_ & Hrefused & _).
    by rewrite Hrefused.
  - destruct (created_task_title Demo.env untitled Demo.empty)
      as (_ & Hrefused & _).
    by rewrite Hrefused.
Defined.

(** ** The scenarios of the spec, run *)

(** Three intents for three records, the second forced to fail: the pass
    syncs two and fails one, whose [retry_count] becomes 1. *)
Example pass_with_one_failing_intent :
  let failing :=
    Example.intent "q7" "t7" "fail" (JObject []) "2024-05-01T09:00:07.000Z"
      0 None in
  let st := Example.state
              [Example.task "t2" "Buy milk" pending;
               Example.task "t7" "Call home" pending;
               Example.task "t8" "Water plants" pending]
              [Example.accepted; failing;
               Example.intent "q8" "t8" "delete" (JObject [])
                 "2024-05-01T09:00:08.000Z" 0 None] in
  let '(res, st') := sync Demo.env st in
  (success res, synced_items res, failed_items res) = (false, 2%Z, 1%Z)
  /\ (fun r => (id r, retry_count r)) <$> sync_queue (db st')
     = [("q7", 1%Z)]
  /\ Task.sync_status <$> tasks (db st') = [synced; pending; synced].
Proof. vm_compute. repeat split; congruence. Qed.

(** The failing intent after three passes: exhausted, still queued, its
    record in error; a fourth pass finds nothing to do. *)
Example three_passes_exhaust_the_intent :
  let failing :=
    Example.intent "q7" "t7" "fail" (JObject []) "2024-05-01T09:00:07.000Z"
      0 None in
  let st := Example.state [Example.task "t7" "Call home" pending] [failing] in
  let pass s := snd (sync Demo.env s) in
  let st3 := pass (pass (pass st)) in
  (fun r => (id r, retry_count r, error_message r)) <$> sync_queue (db st3)
  = [("q7", 3%Z, Some "Forced failure for testing")]
  /\ Task.sync_status <$> tasks (db st3) = [error]
  /\ details (fst (sync Demo.env st3)) = DetailsMessage "No items to sync".
Proof. vm_compute. repeat split; congruence. Qed.

(** * Further properties of the services *)

(** ** The remote call *)

Section RemoteCall.

Variable E : Env.

Lemma makeApiCall_requests operation data taskId st :
  requests (snd (makeApiCall E operation data taskId st))
  = (requests st
     ++ option_list (request_of E operation data taskId))%list.
Proof.
  unfold makeApiCall, request_of, try_catch, axios_call, throw.
  repeat case_decide; simpl; rewrite ?app_nil_r; try done;
    repeat (case_match; simplify_eq/=; try done).
Qed.

Lemma makeApiCall_rejected operation data taskId st r e :
  request_of E operation data taskId = Some r ->
  axios E (requests st) r = Some e ->
  fst (makeApiCall E operation data taskId st) = Reject (api_error e)
  /\ db (snd (makeApiCall E operation data taskId st)) = db st.
Proof.
  unfold makeApiCall, request_of, api_error, try_catch, axios_call, throw.
  repeat case_decide; simpl; try done; intros [= <-] Hax; rewrite Hax; simpl;
    by destruct (isAxiosError e).
Qed.

(** X1.  [makeApiCall] calls axios exactly once for [create], [update]
    and [delete] ([axios.post] on [/tasks] and [axios.put] on [/tasks/:id]
    with the payload, [axios.delete] on [/tasks/:id] without it) and
    resolves when axios does; an error of axios, whether it comes from the
    server or from axios itself before anything is sent, is rethrown as a
    plain error whose message is ['API Error: '] followed by the message
    of the server's answer or, when there is none or it is empty, by the
    message of the axios error.  For any other operation it calls nothing
    and rejects with ['Unknown operation: '] and the operation.  It never
    touches the tables. *)
Theorem makeApiCall_calls_axios_once operation data taskId st :
  db (snd (makeApiCall E operation data taskId st)) = db st
  /\ match request_of E operation data taskId with
     | Some r =>
         requests (snd (makeApiCall E operation data taskId st))
         = (requests st ++ [r])%list
         /\ fst (makeApiCall E operation data taskId st)
            = match axios E (requests st) r with
              | None => Resolve tt
              | Some e => Reject (api_error e)
              end
     | None =>
         requests (snd (makeApiCall E operation data taskId st)) = requests st
         /\ fst (makeApiCall E operation data taskId st)
            = Reject (Error_ ("Unknown operation: " +:+ operation))
     end.
Proof.
  unfold makeApiCall, request_of, api_error, try_catch, axios_call, throw.
  repeat case_decide; simpl; try done;
    repeat (case_match; simplify_eq/=; try done).
Qed.

(** X2.  What [processSyncItem] does with the payload of an intent that
    is not forced to fail.  A payload that does not parse is a failure
    with the message ['Malformed data in sync queue'], whatever the parser
    said, and axios is not called.  A payload that parses to [null] is a
    failure too (reading its [title] throws) and axios is not called.  An
    empty payload is handed to axios as the empty object; a payload that
    parses to a string, number, boolean or array is handed to axios as it
    is, in one call.  When axios rejects that call (the server refuses, or
    axios itself refuses the body before anything is sent), the processing
    fails with the error of [makeApiCall] and no table is changed, so the
    intent stays in the queue. *)
Theorem processSyncItem_payload item st :
  operation item <> "fail" ->
  (forall e, data item <> "" -> JSON_parse E (data item) = Reject e ->
     fst (processSyncItem E item st)
     = Reject (Error_ "Malformed data in sync queue")
     /\ requests (snd (processSyncItem E item st)) = requests st
     /\ db (snd (processSyncItem E item st)) = db st)
  /\ (includes (task_id item) "fail" = false ->
      (data item <> "" -> JSON_parse E (data item) = Resolve JNull ->
         fst (processSyncItem E item st)
         = Reject (Error_ "Cannot read properties of null (reading 'title')")
         /\ requests (snd (processSyncItem E item st)) = requests st
         /\ db (snd (processSyncItem E item st)) = db st)
      /\ (forall payload r,
            (data item = "" /\ payload = JObject []
             \/ data item <> ""
                /\ JSON_parse E (data item) = Resolve payload
                /\ match payload with
                   | JNull | JObject _ => False
                   | _ => True
                   end) ->
            request_of E (operation item) payload (task_id item) = Some r ->
            requests (snd (processSyncItem E item st))
            = (requests st ++ [r])%list
            /\ forall e, axios E (requests st) r = Some e ->
                 fst (processSyncItem E item st) = Reject (api_error e)
                 /\ db (snd (processSyncItem E item st)) = db st)).
Proof.
  intros Hop. split; [|intros Hid; split].
  - intros e Hdata Hparse.
    unfold processSyncItem, bind, try_catch, ret, throw, console_log,
      console_error.
    rewrite decide_False, (decide_False (P := data item = "")), Hparse by done.
    done.
  - intros Hdata Hparse.
    unfold processSyncItem, get_property, bind, try_catch, ret, throw,
      console_log, console_error.
    rewrite decide_False, (decide_False (P := data item = "")), Hparse, Hid
      by done.
    done.
  - intros payload r Hpayload Hreq.
    pose proof (makeApiCall_requests (operation item) payload
                  (task_id item)) as Hcall.
    pose proof (fun s e => makeApiCall_rejected (operation item) payload
                             (task_id item) s r e Hreq) as Hrej.
    rewrite Hreq in Hcall. simpl in Hcall.
    unfold processSyncItem, get_property, strict_eq_string, bind, try_catch,
      ret, throw, console_log, console_error, new_Date_toISOString, db_run,
      db_statement, set_db.
    rewrite (decide_False (P := operation item = "fail")), Hid by done.
    destruct Hpayload as [[Hdata ->]|(Hdata & Hparse & Hshape)].
    + rewrite (decide_True (P := data item = "")) by done. simpl.
      match goal with |- context [makeApiCall E _ _ _ ?s] =>
        pose proof (Hcall s) as Hr; pose proof (Hrej s) as Hr';
        destruct (makeApiCall E (operation item) (JObject []) (task_id item) s)
          as [[[]|e] s'] end; simpl in *;
        (split; [|intros e0 Hax; destruct (Hr' e0 Hax) as [He' Hdb'];
                  simplify_eq/=; done]);
        try done;
        repeat (case_match; simplify_eq/=; try done; try congruence).
    + rewrite (decide_False (P := data item = "")), Hparse by done.
      destruct payload; try done; simpl;
        match goal with |- context [makeApiCall E _ ?p _ ?s] =>
          pose proof (Hcall s) as Hr; pose proof (Hrej s) as Hr';
          destruct (makeApiCall E (operation item) p (task_id item) s)
            as [[[]|e] s'] end; simpl in *;
        (split; [|intros e0 Hax; destruct (Hr' e0 Hax) as [He' Hdb'];
                  simplify_eq/=; done]);
        try done;
        repeat (case_match; simplify_eq/=; try done; try congruence).
Qed.

End RemoteCall.

(** ** Counts, purge and resets *)

Section Counts.

Variable E : Env.

Lemma db_get_fetch {Row} (query : Tables -> list Row) st :
  db_fault E (db_calls st) = None ->
  exists st1,
    db_get E query st = (Resolve (head (query (db st))), st1)
    /\ db st1 = db st /\ db_calls st1 = S (db_calls st).
Proof.
  intros Hok. unfold db_get, db_statement. rewrite Hok. simpl.
  eexists. split; [done|]. by destruct st as [[] ? ? ? ? ?].
Qed.

Lemma pending_or_exhausted (queue : list SyncQueueItem.t) :
  length (filter (fun r => (retry_count r < maxRetries)%Z) queue)
  + length (filter (fun r => (retry_count r >= maxRetries)%Z) queue)
  = length queue.
Proof.
  rewrite <- length_app.
  rewrite (filter_ext_in (fun r => (retry_count r >= maxRetries)%Z)
             (fun r => ~ (retry_count r < maxRetries)%Z))
    by (intros r _; lia).
  apply Permutation_length, filter_app_complement.
Qed.

(** X3.  With the storage available, the pending count and the failed
    count add up to the total count, which is the number of intents in the
    queue; the pending count is the number of intents the next pass takes
    into its snapshot.  None of the three calls changes a table. *)
Theorem sync_counts_partition st :
  db_fault E (db_calls st) = None ->
  exists p f t,
    fst (getPendingSyncCount E st) = Resolve p
    /\ fst (getFailedSyncCount E st) = Resolve f
    /\ fst (getTotalSyncItems E st) = Resolve t
    /\ (p + f = t)%Z
    /\ t = Z.of_nat (length (sync_queue (db st)))
    /\ p = Z.of_nat (length (sql_select_pending maxRetries (db st)))
    /\ db (snd (getPendingSyncCount E st)) = db st
    /\ db (snd (getFailedSyncCount E st)) = db st
    /\ db (snd (getTotalSyncItems E st)) = db st.
Proof.
  intros Hok.
  unfold getPendingSyncCount, getFailedSyncCount, getTotalSyncItems,
    try_catch, bind, ret.
  destruct (db_get_fetch (sql_count_pending maxRetries) st Hok)
    as (s1 & -> & Hd1 & _).
  destruct (db_get_fetch (sql_count_failed maxRetries) st Hok)
    as (s2 & -> & Hd2 & _).
  destruct (db_get_fetch sql_count_total st Hok) as (s3 & -> & Hd3 & _).
  simpl. eexists _, _, _. split_and!; try done.
  - unfold changes_where. rewrite <- Nat2Z.inj_add. f_equal.
    exact (pending_or_exhausted (sync_queue (db st))).
  - unfold changes_where. f_equal. symmetry.
    apply Permutation_length, select_pending_perm.
Qed.

(** X4.  The counts, the last sync time, the listing, the two resets and
    the purge never reject.  When the storage fails they answer as for an
    empty store ([0], [null], [[]], [{retried: 0, failed: 0}]), except
    [retryFailed], which reports every supplied id as failed; no table is
    changed. *)
Theorem admin_calls_swallow_storage_failure st options ids :
  ((exists n, fst (getPendingSyncCount E st) = Resolve n)
   /\ (exists n, fst (getFailedSyncCount E st) = Resolve n)
   /\ (exists n, fst (getTotalSyncItems E st) = Resolve n)
   /\ (exists t, fst (getLastSyncTime E st) = Resolve t)
   /\ (exists l, fst (getSyncQueue E options st) = Resolve l)
   /\ (exists r, fst (retryAllFailed E st) = Resolve r)
   /\ (exists r, fst (retryFailed E ids st) = Resolve r)
   /\ (exists n, fst (clearSyncQueue E st) = Resolve n))
  /\ (forall msg,
        db_fault E (db_calls st) = Some msg ->
        fst (getPendingSyncCount E st) = Resolve 0%Z
        /\ fst (getFailedSyncCount E st) = Resolve 0%Z
        /\ fst (getTotalSyncItems E st) = Resolve 0%Z
        /\ fst (getLastSyncTime E st) = Resolve None
        /\ fst (getSyncQueue E options st) = Resolve []
        /\ fst (retryAllFailed E st) = Resolve {| retried := 0; failed := 0 |}
        /\ (ids <> [] ->
            fst (retryFailed E ids st)
            = Resolve {| retried := 0;
                         failed := Z.of_nat (length ids) |})
        /\ fst (clearSyncQueue E st) = Resolve 0%Z
        /\ db (snd (getPendingSyncCount E st)) = db st
        /\ db (snd (getFailedSyncCount E st)) = db st
        /\ db (snd (getTotalSyncItems E st)) = db st
        /\ db (snd (getLastSyncTime E st)) = db st
        /\ db (snd (getSyncQueue E options st)) = db st
        /\ db (snd (retryAllFailed E st)) = db st
        /\ db (snd (retryFailed E ids st)) = db st
        /\ db (snd (clearSyncQueue E st)) = db st).
Proof.
  unfold getPendingSyncCount, getFailedSyncCount, getTotalSyncItems,
    getLastSyncTime, getSyncQueue, retryAllFailed, retryFailed,
    clearSyncQueue, try_catch, bind, ret, console_error, db_get, db_all,
    db_run, db_statement, set_db.
  split.
  - destruct (db_fault E (db_calls st)); simpl;
      split_and!; try by eexists.
    all: repeat case_match; simpl; by eexists.
  - intros msg Hf. rewrite !Hf. simpl. split_and!; try done.
    + intros Hids. rewrite decide_False by (by intros ?%nil_length_inv).
      by rewrite Hf.
    + case_decide; [done|]. by rewrite Hf.
Qed.

(** X5.  With the storage available [clearSyncQueue] answers the number
    of intents the queue held and leaves it empty, the exhausted intents
    included; the records are not touched, and the next pass has nothing
    to take. *)
Theorem clearSyncQueue_empties_queue st :
  db_fault E (db_calls st) = None ->
  fst (clearSyncQueue E st)
  = Resolve (Z.of_nat (length (sync_queue (db st))))
  /\ sync_queue (db (snd (clearSyncQueue E st))) = []
  /\ tasks (db (snd (clearSyncQueue E st))) = tasks (db st)
  /\ sql_select_pending maxRetries (db (snd (clearSyncQueue E st))) = [].
Proof.
  intros Hok. unfold clearSyncQueue, try_catch.
  destruct (db_run_ok E sql_delete_all_sync_queue st Hok)
    as (st' & -> & Hdb & _).
  simpl. rewrite Hdb. done.
Qed.

(** X6.  With the storage available, after [retryAllFailed] no intent is
    exhausted: the next pass takes every intent of the queue, in the same
    number as before, and a second [retryAllFailed] right after resets
    nothing and changes nothing. *)
Theorem retryAllFailed_leaves_none_exhausted st :
  db_fault E (db_calls st) = None ->
  db_fault E (S (db_calls st)) = None ->
  let st1 := snd (retryAllFailed E st) in
  Forall (fun r => ~ exhausted r) (sync_queue (db st1))
  /\ sql_select_pending maxRetries (db st1) ≡ₚ sync_queue (db st1)
  /\ length (sync_queue (db st1)) = length (sync_queue (db st))
  /\ fst (retryAllFailed E st1) = Resolve {| retried := 0; failed := 0 |}
  /\ db (snd (retryAllFailed E st1)) = db st1.
Proof.
  intros Hok1 Hok2 st1.
  assert (forall s, db_fault E (db_calls s) = None ->
            fst (retryAllFailed E s)
            = Resolve {| retried := changes_where exhausted (sync_queue (db s));
                         failed := 0 |}
            /\ sync_queue (db (snd (retryAllFailed E s)))
               = update_where exhausted set_reset (sync_queue (db s))
            /\ tasks (db (snd (retryAllFailed E s))) = tasks (db s)
            /\ db_calls (snd (retryAllFailed E s)) = S (db_calls s)) as Hrun.
  { intros s Hs. unfold retryAllFailed, try_catch, bind, db_run, db_statement.
    rewrite Hs. simpl. done. }
  destruct (Hrun st Hok1) as (_ & Hq & Ht & Hcalls). fold st1 in Hq, Ht, Hcalls.
  assert (Forall (fun r => ~ exhausted r) (sync_queue (db st1))) as Hnone.
  { rewrite Hq. apply Forall_forall.
    intros r' (r & _ & ->)%elem_of_update_where.
    case_decide; [apply set_reset_pending|done]. }
  split_and!.
  - exact Hnone.
  - rewrite select_pending_perm, filter_all; [done|].
    intros r Hr. rewrite Forall_forall in Hnone. specialize (Hnone r Hr).
    unfold exhausted in Hnone. lia.
  - rewrite Hq. unfold update_where. by rewrite length_fmap.
  - destruct (Hrun st1) as (-> & _); [by rewrite Hcalls|].
    unfold changes_where. rewrite filter_none; [done|].
    by apply Forall_forall.
  - destruct (Hrun st1) as (_ & Hq' & Ht' & _); [by rewrite Hcalls|].
    destruct (db (snd (retryAllFailed E st1))) as [ts qs] eqn:Hd.
    destruct (db st1) as [ts1 qs1]. simpl in *. subst ts.
    rewrite Hq', update_where_none; [done|].
    by apply Forall_forall.
Qed.

End Counts.

(** ** The last sync time *)

#[global] Instance string_desc_total : Total string_desc.
Proof. intros a b. unfold string_desc. apply (total String.le). Qed.

#[global] Instance string_desc_trans : Transitive string_desc.
Proof. intros a b c Hab Hbc. unfold string_desc in *. by etransitivity. Qed.

Lemma String_le_empty (s : string) : String.le s "" -> s = "".
Proof. by destruct s. Qed.

Section LastSync.

Variable E : Env.

(** X7.  With the storage available, [getLastSyncTime] answers the
    greatest [last_synced_at] among all records, the soft-deleted ones
    included: a time it answers is not empty, is the stamp of a record and
    is not before the stamp of any record; it answers a time as soon as a
    record has a non-empty stamp, and [null] when no record has one. *)
Theorem getLastSyncTime_is_latest st :
  db_fault E (db_calls st) = None ->
  (forall t, fst (getLastSyncTime E st) = Resolve (Some t) ->
     t <> ""
     /\ (exists task, task ∈ tasks (db st) /\ Task.last_synced_at task = Some t)
     /\ forall task t', task ∈ tasks (db st) ->
          Task.last_synced_at task = Some t' -> String.le t' t)
  /\ ((exists task t, task ∈ tasks (db st)
                      /\ Task.last_synced_at task = Some t /\ t <> "") ->
      exists t, fst (getLastSyncTime E st) = Resolve (Some t))
  /\ ((forall task, task ∈ tasks (db st) -> Task.last_synced_at task = None) ->
      fst (getLastSyncTime E st) = Resolve None)
  /\ db (snd (getLastSyncTime E st)) = db st.
Proof.
  intros Hok. unfold getLastSyncTime, try_catch, bind, ret.
  destruct (db_get_fetch E sql_select_last_synced st Hok) as (st1 & -> & Hdb & _).
  unfold sql_select_last_synced.
  set (stamps := omap Task.last_synced_at (tasks (db st))).
  set (sorted := merge_sort string_desc stamps).
  assert (forall t, t ∈ sorted <->
            exists task, task ∈ tasks (db st)
                         /\ Task.last_synced_at task = Some t) as Hin.
  { intros t. unfold sorted. rewrite merge_sort_Permutation.
    unfold stamps. rewrite list_elem_of_omap. naive_solver. }
  assert (StronglySorted string_desc sorted) as Hsorted.
  { apply StronglySorted_merge_sort; apply _. }
  assert (head (take 1 sorted) = head sorted) as -> by (by destruct sorted).
  destruct sorted as [|top rest] eqn:Hs; simpl.
  - split_and!; try done.
    intros (task & t & Htask & Hstamp & _).
    assert (t ∈ @nil string) as Hnil by (apply Hin; eauto).
    by apply elem_of_nil in Hnil.
  - assert (forall t, t ∈ top :: rest -> String.le t top) as Hmax.
    { intros t [->|Ht]%elem_of_cons; [done|].
      apply StronglySorted_inv in Hsorted as [_ Hall].
      rewrite Forall_forall in Hall. by apply Hall. }
    split_and!; try done.
    + intros t. case_decide as Htop; [done|]. intros [= <-].
      split_and!; [done| |].
      * apply Hin. by left.
      * intros task t' Htask Hstamp. apply Hmax, Hin. eauto.
    + intros (task & t & Htask & Hstamp & Hne).
      rewrite decide_False; [by eexists|].
      intros ->. apply Hne, String_le_empty, Hmax, Hin. eauto.
    + intros Hnone. exfalso.
      assert (top ∈ top :: rest) as Htop by (by left).
      apply Hin in Htop as (task & Htask & Hstamp).
      by rewrite (Hnone task Htask) in Hstamp.
Qed.

End LastSync.

(** ** Records: lookups, deletions, failures between two statements *)

Lemma select_task_after_delete i at_ status (rows : list Task.t) :
  filter (fun t => Task.id t = i /\ Task.is_deleted t = false)
    (update_where (fun t => Task.id t = i)
       (set_task_deleted true at_ status) rows) = [].
Proof.
  apply filter_none. intros t (t0 & _ & ->)%elem_of_update_where [Hid Hdel].
  case_decide as Ht; [done|]. by apply Ht.
Qed.

Section Records.

Variable E : Env.

Lemma getTask_fetch i st :
  db_fault E (db_calls st) = None ->
  exists st1,
    getTask E i st = (Resolve (head (sql_select_task i (db st))), st1)
    /\ db st1 = db st /\ requests st1 = requests st
    /\ uuids st1 = uuids st /\ dates st1 = dates st
    /\ db_calls st1 = S (db_calls st).
Proof.
  intros Hok. unfold getTask, bind, ret, db_get, db_statement.
  rewrite Hok. simpl. eexists. split; [done|].
  by destruct st as [[] ? ? ? ? ?].
Qed.

(** X8.  A record that does not exist, or that is soft-deleted, can be
    neither read, updated nor deleted: with the storage available
    [getTask] and [updateTask] answer [null], [deleteTask] answers
    [false], the three routes answer 404, and neither table changes (no
    intent is enqueued). *)
Theorem missing_task_is_left_alone i updates st :
  db_fault E (db_calls st) = None ->
  sql_select_task i (db st) = [] ->
  fst (getTask E i st) = Resolve None
  /\ fst (updateTask E i updates st) = Resolve None
  /\ fst (deleteTask E i st) = Resolve false
  /\ db (snd (updateTask E i updates st)) = db st
  /\ db (snd (deleteTask E i st)) = db st
  /\ fst (createTaskRouter_get E i st) = reply_error 404 "Task not found"
  /\ fst (createTaskRouter_put E i updates st)
     = reply_error 404 "Task not found"
  /\ fst (createTaskRouter_delete E i st) = reply_error 404 "Task not found".
Proof.
  intros Hok Hnone.
  unfold createTaskRouter_get, createTaskRouter_put, createTaskRouter_delete,
    updateTask, deleteTask, bind.
  destruct (getTask_fetch i st Hok) as (st1 & -> & Hdb & _).
  rewrite Hnone. simpl. by destruct updates.
Qed.

(** X9.  With the storage available, deleting an existing record hides it
    and keeps its row: afterwards [getTask] answers [null] for it,
    [getAllTasks] and [getTasksNeedingSync] do not list it, the table
    holds the same rows in the same number, and a second [deleteTask]
    answers [false]. *)
Theorem deleteTask_hides_record i st existing :
  storage_ok E ->
  head (sql_select_task i (db st)) = Some existing ->
  let st' := snd (deleteTask E i st) in
  fst (deleteTask E i st) = Resolve true
  /\ fst (getTask E i st') = Resolve None
  /\ (forall l t, fst (getAllTasks E st') = Resolve l -> t ∈ l ->
        Task.id t <> i)
  /\ (forall l t, fst (getTasksNeedingSync E st') = Resolve l -> t ∈ l ->
        Task.id t <> i)
  /\ Task.id <$> tasks (db st') = Task.id <$> tasks (db st)
  /\ fst (deleteTask E i st') = Resolve false.
Proof.
  intros Hok Hhead st'.
  assert (fst (deleteTask E i st) = Resolve true
          /\ tasks (db st')
             = update_where (fun t => Task.id t = i)
                 (set_task_deleted true (Date_toISOString E (dates st))
                    pending) (tasks (db st))) as [Hrun Htasks].
  { subst st'.
    unfold deleteTask, getTask, addToSyncQueue, bind, ret, new_uuid,
      new_Date_toISOString, db_run, db_get, db_statement, set_db.
    simpl. repeat (rewrite Hok; simpl). rewrite Hhead. simpl.
    repeat (rewrite Hok; simpl). done. }
  assert (sql_select_task i (db st') = []) as Hgone.
  { unfold sql_select_task. rewrite Htasks. apply select_task_after_delete. }
  assert (forall t, t ∈ tasks (db st') -> Task.is_deleted t = false ->
            Task.id t <> i) as Hvisible.
  { intros t Ht Hdel Hid.
    assert (t ∈ sql_select_task i (db st')) as Hin
      by (apply list_elem_of_filter; done).
    rewrite Hgone in Hin. by apply elem_of_nil in Hin. }
  split_and!.
  - exact Hrun.
  - destruct (getTask_fetch i st' (Hok _)) as (s1 & -> & _). by rewrite Hgone.
  - intros l t. unfold getAllTasks.
    destruct (db_all_fetch E sql_select_all_tasks st' (Hok _)) as (s1 & -> & _).
    intros [= <-] [Hdel Ht]%list_elem_of_filter. by apply Hvisible.
  - intros l t. unfold getTasksNeedingSync.
    destruct (db_all_fetch E (sql_select_tasks_in_status pending error) st'
                (Hok _)) as (s1 & -> & _).
    intros [= <-] [[_ Hdel] Ht]%list_elem_of_filter. by apply Hvisible.
  - rewrite Htasks. by apply update_where_key.
  - unfold deleteTask, bind.
    destruct (getTask_fetch i st' (Hok _)) as (s1 & -> & _). by rewrite Hgone.
Qed.

(** X10.  With the storage available and an identifier no record has
    yet, a record just created is read back unchanged by [getTask], is
    listed by [getAllTasks] and by [getTasksNeedingSync], and is pending,
    not deleted, never synced, with equal creation and update times. *)
Theorem createTask_then_getTask taskData st :
  storage_ok E ->
  uuidv4 E (uuids st) ∉ Task.id <$> tasks (db st) ->
  exists task st',
    createTask E taskData st = (Resolve task, st')
    /\ fst (getTask E (Task.id task) st') = Resolve (Some task)
    /\ (exists l, fst (getAllTasks E st') = Resolve l /\ task ∈ l)
    /\ (exists l, fst (getTasksNeedingSync E st') = Resolve l /\ task ∈ l)
    /\ Task.sync_status task = pending
    /\ Task.is_deleted task = false
    /\ Task.last_synced_at task = None
    /\ Task.server_id task = None
    /\ Task.created_at task = Task.updated_at task.
Proof.
  intros Hok Hfresh.
  assert (exists task st',
            createTask E taskData st = (Resolve task, st')
            /\ tasks (db st') = (tasks (db st) ++ [task])%list
            /\ Task.id task = uuidv4 E (uuids st)
            /\ Task.sync_status task = pending
            /\ Task.is_deleted task = false
            /\ Task.last_synced_at task = None
            /\ Task.server_id task = None
            /\ Task.created_at task = Task.updated_at task)
    as (task & st' & Hrun & Htasks & Hid & Hstatus & Hdel & Hlast & Hsrv & Hat).
  { unfold createTask, addToSyncQueue, bind, ret, new_uuid,
      new_Date_toISOString, db_run, db_statement, set_db.
    simpl. repeat (rewrite Hok; simpl). by eexists _, _. }
  exists task, st'. split_and!; try done.
  - destruct (getTask_fetch (Task.id task) st' (Hok _)) as (s1 & -> & _).
    simpl. f_equal. unfold sql_select_task. rewrite Htasks, filter_app.
    rewrite filter_none.
    + by rewrite filter_cons_True, filter_nil.
    + intros t Ht [Heq _]. apply Hfresh. rewrite <- Hid, <- Heq.
      apply list_elem_of_fmap. by exists t.
  - unfold getAllTasks.
    destruct (db_all_fetch E sql_select_all_tasks st' (Hok _)) as (s1 & -> & _).
    eexists. split; [done|]. apply list_elem_of_filter. split; [done|].
    rewrite Htasks. apply elem_of_app. right. by left.
  - unfold getTasksNeedingSync.
    destruct (db_all_fetch E (sql_select_tasks_in_status pending error) st'
                (Hok _)) as (s1 & -> & _).
    eexists. split; [done|]. apply list_elem_of_filter. split; [by auto|].
    rewrite Htasks. apply elem_of_app. right. by left.
Qed.

(** X11.  The statement that changes a record and the statement that
    enqueues its intent are not one transaction.  When the first succeeds
    and the second fails, [createTask] and [deleteTask] reject with the
    error of the storage, the record stays inserted, respectively
    soft-deleted, no intent is enqueued for it, and the routes answer
    500. *)
Theorem mutation_without_intent_on_storage_failure st msg :
  (forall taskData,
     db_fault E (db_calls st) = None ->
     db_fault E (S (db_calls st)) = Some msg ->
     let st' := snd (createTask E taskData st) in
     fst (createTask E taskData st) = Reject (Error_ msg)
     /\ length (tasks (db st')) = S (length (tasks (db st)))
     /\ sync_queue (db st') = sync_queue (db st)
     /\ (truthy (p_title taskData) = true ->
         fst (createTaskRouter_post E taskData st)
         = {| res_status := 500;
              res_body := body_error "Failed to create task" |}))
  /\ (forall i existing,
        head (sql_select_task i (db st)) = Some existing ->
        db_fault E (db_calls st) = None ->
        db_fault E (S (db_calls st)) = None ->
        db_fault E (S (S (db_calls st))) = Some msg ->
        let st' := snd (deleteTask E i st) in
        fst (deleteTask E i st) = Reject (Error_ msg)
        /\ sql_select_task i (db st') = []
        /\ sync_queue (db st') = sync_queue (db st)
        /\ fst (createTaskRouter_delete E i st)
           = reply_error 500 "Failed to delete task").
Proof.
  split.
  - intros taskData Hok1 Hf2.
    unfold createTaskRouter_post, createTask, addToSyncQueue, bind, ret,
      new_uuid, new_Date_toISOString, db_run, db_statement, set_db.
    simpl. rewrite Hok1. simpl. rewrite Hf2. simpl.
    split_and!; try done.
    + rewrite length_app. simpl. lia.
    + by intros ->.
  - intros i existing Hhead Hok1 Hok2 Hf3.
    unfold createTaskRouter_delete, deleteTask, getTask, addToSyncQueue,
      bind, ret, new_uuid, new_Date_toISOString, db_run, db_get,
      db_statement, set_db.
    simpl. rewrite Hok1. simpl. rewrite Hhead. simpl. rewrite Hok2. simpl.
    rewrite Hf3. simpl. split_and!; try done.
    apply select_task_after_delete.
Qed.

(** X12.  [PUT /:id] does not check the title: with the storage
    available, for an existing record it answers 200 with the updated
    record, whose title is the title of the body when the body has one,
    the empty string included, and the stored title otherwise; the record
    is set back to [pending]. *)
Theorem put_route_takes_any_title i body st existing :
  storage_ok E ->
  head (sql_select_task i (db st)) = Some existing ->
  exists updated,
    fst (createTaskRouter_put E i body st) = reply_task 200 updated
    /\ Task.title updated = default (Task.title existing) (p_title body)
    /\ Task.sync_status updated = pending
    /\ Task.id updated = Task.id existing
    /\ head (sql_select_task i (db (snd (createTaskRouter_put E i body st))))
       = Some updated.
Proof.
  intros Hok Hhead.
  unfold createTaskRouter_put, updateTask, getTask, addToSyncQueue, bind,
    ret, new_uuid, new_Date_toISOString, db_run, db_get, db_statement, set_db.
  simpl. repeat (rewrite Hok; simpl). rewrite Hhead. simpl.
  repeat (rewrite Hok; simpl).
  unfold sql_select_task in *. simpl.
  rewrite select_task_update by done.
  destruct (filter _ (tasks (db st))) as [|t0 rows] eqn:Hrows; simplify_eq/=.
  repeat (rewrite Hok; simpl). eexists. split; [reflexivity|].
  split_and!; try done. by rewrite select_task_update, Hrows.
Qed.

End Records.

(** ** What a pass keeps *)

Lemma same_record_refl t : same_record t t.
Proof. by repeat split. Qed.

Lemma same_record_trans a b c :
  same_record a b -> same_record b c -> same_record a c.
Proof.
  unfold same_record.
  intros (? & ? & ? & ? & ? & ? & ? & ?) (? & ? & ? & ? & ? & ? & ? & ?).
  split_and!; congruence.
Qed.

Lemma update_where_related {A} (R : A -> A -> Prop) (P : A -> Prop)
    `{!forall x, Decision (P x)} (set : A -> A) (rows0 rows : list A) :
  (forall a b, R a b -> R a (set b)) ->
  Forall2 R rows0 rows -> Forall2 R rows0 (update_where P set rows).
Proof.
  intros Hset Hrel. unfold update_where. apply Forall2_fmap_r.
  eapply Forall2_impl; [exact Hrel|]. intros a b Hab. simpl.
  case_decide; [by apply Hset|done].
Qed.

Section Keeps.

Variable E : Env.

(** The two tables after the processing of one intent. *)
Lemma processSyncItem_tables item st :
  let st1 := snd (processSyncItem E item st) in
  (sync_queue (db st1) = sync_queue (db st)
   \/ sync_queue (db st1)
      = filter (fun r => id r <> id item) (sync_queue (db st)))
  /\ (tasks (db st1) = tasks (db st)
      \/ exists at_,
           tasks (db st1)
           = update_where (fun t => Task.id t = task_id item)
               (set_task_synced synced at_) (tasks (db st))).
Proof.
  unfold processSyncItem, makeApiCall, get_property, bind, try_catch, ret,
    throw, console_log, console_error, axios_call, new_Date_toISOString,
    db_run, db_statement, set_db.
  simpl. repeat (case_match; simplify_eq/=; eauto).
Qed.

Lemma handleSyncError_tables item err st :
  let st2 := snd (handleSyncError E item err st) in
  (sync_queue (db st2) = sync_queue (db st)
   \/ exists at_,
        sync_queue (db st2)
        = update_where (fun r => id r = id item)
            (set_failed (retry_count item + 1) (message err) at_)
            (sync_queue (db st)))
  /\ (tasks (db st2) = tasks (db st)
      \/ tasks (db st2)
         = update_where (fun t => Task.id t = task_id item)
             (set_task_status error) (tasks (db st))).
Proof.
  unfold handleSyncError, bind, ret, new_Date_toISOString, db_run,
    db_statement, set_db.
  simpl. repeat (case_match; simplify_eq/=; eauto).
Qed.

(** A property of the state kept by the two steps of an iteration is kept
    by the loop. *)
Lemma sync_loop_keeps (I : State -> Prop) items :
  (forall item s, item ∈ items -> I s -> I (snd (processSyncItem E item s))) ->
  (forall item err s, item ∈ items -> I s ->
     I (snd (handleSyncError E item err s))) ->
  forall v st, I st -> I (snd (sync_loop E items v st)).
Proof.
  induction items as [|item rest IH]; intros Hp Hh v st Hst; [done|].
  simpl.
  pose proof (Hp item st (list_elem_of_here _ _) Hst) as H1.
  destruct (processSyncItem E item st) as [[[]|err] st1]; simpl in H1.
  - apply IH; [| |done]; intros; [apply Hp|apply Hh]; by try right.
  - pose proof (Hh item err st1 (list_elem_of_here _ _) H1) as H2.
    destruct (handleSyncError E item err st1) as [[[]|fatal] st2];
      simpl in H2; [|done].
    apply IH; [| |done]; intros; [apply Hp|apply Hh]; by try right.
Qed.

(** A property of the tables kept by the two steps is kept by a pass. *)
Lemma sync_keeps (P : Tables -> Prop) st :
  (forall item s, item ∈ sql_select_pending maxRetries (db st) -> P (db s) ->
     P (db (snd (processSyncItem E item s)))) ->
  (forall item err s, item ∈ sql_select_pending maxRetries (db st) ->
     P (db s) -> P (db (snd (handleSyncError E item err s)))) ->
  P (db st) -> P (db (snd (sync E st))).
Proof.
  intros Hp Hh Hst. unfold sync, db_all, db_statement, sync_failed.
  destruct (db_fault E (db_calls st)); simpl; [done|].
  case_decide; [done|].
  match goal with |- context [sync_loop E ?items ?v ?s0] =>
    pose proof (sync_loop_keeps (fun x => P (db x)) items Hp Hh v s0 Hst) as Hl;
    destruct (sync_loop E items v s0) as [[v' [fatal|]] s'] end; done.
Qed.

(** X13.  A pass, whatever the remote API and the storage do, neither
    adds, removes nor reorders records, and changes nothing of a record
    but [sync_status] and [last_synced_at]; it adds no intent, and every
    intent left in the queue is an intent that was there, with its id,
    record, operation, payload and creation time. *)
Theorem sync_touches_only_sync_fields st :
  Forall2 same_record (tasks (db st)) (tasks (db (snd (sync E st))))
  /\ length (sync_queue (db (snd (sync E st)))) <= length (sync_queue (db st))
  /\ forall r', r' ∈ sync_queue (db (snd (sync E st))) ->
       exists r, r ∈ sync_queue (db st) /\ same_intent r r'.
Proof.
  split; [|cut (length (sync_queue (db (snd (sync E st))))
                <= length (sync_queue (db st))
                /\ forall r', r' ∈ sync_queue (db (snd (sync E st))) ->
                     exists r, r ∈ sync_queue (db st) /\ same_intent r r');
           [done|]].
  - apply (sync_keeps (fun d => Forall2 same_record (tasks (db st)) (tasks d))).
    + intros item s _ Hs.
      destruct (processSyncItem_tables item s) as [_ [->|[at_ ->]]]; [done|].
      apply update_where_related; [|done].
      intros a b Hab. eapply same_record_trans; [exact Hab|]. by repeat split.
    + intros item err s _ Hs.
      destruct (handleSyncError_tables item err s) as [_ [->| ->]]; [done|].
      apply update_where_related; [|done].
      intros a b Hab. eapply same_record_trans; [exact Hab|]. by repeat split.
    + apply Forall2_same_length_lookup. split; [done|].
      intros k a b Ha Hb. rewrite Ha in Hb. injection Hb as <-.
      apply same_record_refl.
  - apply (sync_keeps
             (fun d => length (sync_queue d) <= length (sync_queue (db st))
                       /\ forall r', r' ∈ sync_queue d ->
                            exists r, r ∈ sync_queue (db st)
                                      /\ same_intent r r')).
    + intros item s _ [Hlen Hs].
      destruct (processSyncItem_tables item s) as [[->| ->] _]; [done|].
      split.
      * etransitivity; [apply length_filter|done].
      * intros r' [_ Hr']%list_elem_of_filter. by apply Hs.
    + intros item err s _ [Hlen Hs].
      destruct (handleSyncError_tables item err s) as [[->|[at_ ->]] _];
        [done|].
      split.
      * unfold update_where. by rewrite length_fmap.
      * intros r' (r0 & Hr0 & ->)%elem_of_update_where.
        destruct (Hs r0 Hr0) as (r & Hr & Hsame). exists r. split; [done|].
        case_decide; [|done]. unfold same_intent in *. simpl. done.
    + split; [done|]. intros r' Hr'. exists r'. by repeat split.
Qed.

(** X14.  The queue stays well formed: when every intent carries an
    error message exactly when its [retry_count] is positive, this is
    still so after [addToSyncQueue], after a pass, after [retryAllFailed],
    after [retryFailed] and after [clearSyncQueue], whatever the remote
    API and the storage do. *)
Theorem queue_stays_well_formed st :
  Forall well_formed (sync_queue (db st)) ->
  (forall taskId operation data,
     Forall well_formed
       (sync_queue (db (snd (addToSyncQueue E taskId operation data st)))))
  /\ Forall well_formed (sync_queue (db (snd (sync E st))))
  /\ Forall well_formed (sync_queue (db (snd (retryAllFailed E st))))
  /\ (forall ids,
        Forall well_formed (sync_queue (db (snd (retryFailed E ids st)))))
  /\ Forall well_formed (sync_queue (db (snd (clearSyncQueue E st)))).
Proof.
  intros Hwf.
  assert (forall (P : SyncQueueItem.t -> Prop) `{!forall x, Decision (P x)} q,
            Forall well_formed q ->
            Forall well_formed (update_where P set_reset q)) as Hreset.
  { intros P ? q Hq. apply Forall_forall.
    intros r' (r & Hr & ->)%elem_of_update_where.
    case_decide; [by repeat split|].
    rewrite Forall_forall in Hq. by apply Hq. }
  split_and!.
  - intros taskId operation data.
    unfold addToSyncQueue, bind, ret, new_uuid, new_Date_toISOString, db_run,
      db_statement, set_db.
    simpl. destruct (db_fault E (db_calls st)); simpl; [done|].
    apply Forall_app. split; [done|]. by repeat constructor.
  - apply (sync_keeps (fun d => Forall well_formed (sync_queue d))); [| |done].
    + intros item s _ Hs.
      destruct (processSyncItem_tables item s) as [[->| ->] _]; [done|].
      apply Forall_forall. intros r [_ Hr]%list_elem_of_filter.
      rewrite Forall_forall in Hs. by apply Hs.
    + intros item err s Hitem Hs.
      destruct (handleSyncError_tables item err s) as [[->|[at_ ->]] _];
        [done|].
      apply elem_of_select_pending in Hitem as [Hitem _].
      rewrite Forall_forall in Hwf. destruct (Hwf item Hitem) as [Hpos _].
      apply Forall_forall.
      intros r' (r & Hr & ->)%elem_of_update_where.
      case_decide.
      * split; simpl; [lia|]. split; [done|lia].
      * rewrite Forall_forall in Hs. by apply Hs.
  - unfold retryAllFailed, try_catch, bind, ret, console_error, db_run,
      db_statement, set_db.
    simpl. destruct (db_fault E (db_calls st)); simpl; [done|].
    by apply Hreset.
  - intros ids.
    unfold retryFailed, try_catch, bind, ret, console_error, db_run,
      db_statement, set_db.
    case_decide; simpl; [done|].
    destruct (db_fault E (db_calls st)); simpl; [done|].
    by apply Hreset.
  - unfold clearSyncQueue, try_catch, ret, console_error, db_run,
      db_statement, set_db.
    simpl. destruct (db_fault E (db_calls st)); simpl; [done|]. constructor.
Qed.

End Keeps.

(** ** The calls of axios of a pass, and what its success means *)

Section PassOutcome.

Variable E : Env.

Lemma processSyncItem_calls item st :
  exists calls,
    requests (snd (processSyncItem E item st)) = (requests st ++ calls)%list
    /\ calls_of E item calls.
Proof.
  assert (forall payload s,
            payload_of E item payload ->
            exists calls,
              requests (snd (makeApiCall E (operation item) payload
                               (task_id item) s))
              = (requests s ++ calls)%list
              /\ calls_of E item calls) as Hcall.
  { intros payload s Hpayload. rewrite makeApiCall_requests.
    destruct (request_of E (operation item) payload (task_id item)) as [q|]
      eqn:Hq; simpl.
    - exists [q]. split; [done|]. right. by exists payload, q.
    - exists []. split; [done|]. by left. }
  assert (exists calls : list Request,
            requests st = (requests st ++ calls)%list
            /\ calls_of E item calls) as Hnone.
  { exists []. rewrite app_nil_r. split; [done|]. by left. }
  unfold processSyncItem, get_property, bind, try_catch, ret, throw,
    console_log, console_error, new_Date_toISOString, db_run, db_statement,
    set_db.
  simpl.
  repeat (case_match; simplify_eq/=; try done);
    match goal with
    | H : makeApiCall E _ ?payload _ ?s = _ |- _ =>
        assert (payload_of E item payload) as Hpayload
          by (unfold payload_of; case_decide; simplify_eq/=; done);
        pose proof (Hcall payload s Hpayload) as Hs; rewrite H in Hs; exact Hs
    end.
Qed.

Lemma Forall2_calls_of_none (items : list SyncQueueItem.t) :
  Forall2 (calls_of E) items (replicate (length items) []).
Proof. induction items; simpl; constructor; [by left|done]. Qed.

Lemma sync_loop_calls items :
  forall v st, exists per,
    requests (snd (sync_loop E items v st))
    = (requests st ++ concat per)%list
    /\ Forall2 (calls_of E) items per.
Proof.
  induction items as [|item rest IH]; intros v st.
  - exists []. simpl. rewrite app_nil_r. split; [done|constructor].
  - simpl.
    destruct (processSyncItem_calls item st) as (calls & Hreq1 & Hcalls).
    destruct (processSyncItem E item st) as [[[]|err] st1]; simpl in Hreq1.
    + destruct (IH (after_success v item) st1) as (per & Hreq2 & Hper).
      exists (calls :: per). unfold after_success in Hreq2.
      rewrite Hreq2, Hreq1, <- app_assoc. split; [done|by constructor].
    + pose proof (handleSyncError_requests E item err st1) as Hh.
      destruct (handleSyncError E item err st1) as [[[]|fatal] st2];
        simpl in Hh.
      * destruct (IH (after_failure v item err) st2) as (per & Hreq2 & Hper).
        exists (calls :: per). unfold after_failure in Hreq2.
        rewrite Hreq2, Hh, Hreq1, <- app_assoc. split; [done|by constructor].
      * exists (calls :: replicate (length rest) []). simpl.
        rewrite Hh, Hreq1. split.
        -- f_equal. clear. induction rest; simpl; [by rewrite app_nil_r|done].
        -- constructor; [done|apply Forall2_calls_of_none].
Qed.

(** X15.  A pass only adds to the calls of axios made so far, and what
    it adds is, intent by intent in the order of its snapshot, at most one
    call per intent: nothing, or the one call [makeApiCall] makes for the
    operation, the payload and the record of that intent.  No intent
    accounts for two calls and no call is made for anything that is not in
    the snapshot.  This holds whatever the remote API and the storage
    do. *)
Theorem sync_calls_axios_at_most_once_each st :
  exists per,
    requests (snd (sync E st)) = (requests st ++ concat per)%list
    /\ Forall2 (calls_of E) (sql_select_pending maxRetries (db st)) per.
Proof.
  assert (exists per : list (list Request),
            requests st = (requests st ++ concat per)%list
            /\ Forall2 (calls_of E) (sql_select_pending maxRetries (db st))
                 per) as Hnone.
  { exists (replicate
              (length (sql_select_pending maxRetries (db st))) []).
    split; [|apply Forall2_calls_of_none].
    generalize (length (sql_select_pending maxRetries (db st))).
    intros n. induction n; simpl; [by rewrite app_nil_r|done]. }
  unfold sync, db_all, db_statement, sync_failed, console_error.
  destruct (db_fault E (db_calls st)); simpl; [done|].
  case_decide; simpl; [done|].
  match goal with |- context [sync_loop E ?items ?v ?s0] =>
    destruct (sync_loop_calls items v s0) as (per & Hreq & Hper);
    destruct (sync_loop E items v s0) as [[v' [fatal|]] s'] end;
    simpl in Hreq |- *; by exists per.
Qed.

Lemma sync_loop_errorCount items :
  forall v st, (errorCount v <= errorCount (fst (fst (sync_loop E items v st))))%Z.
Proof.
  induction items as [|item rest IH]; intros v st; simpl; [done|].
  destruct (processSyncItem E item st) as [[[]|err] st1].
  - etransitivity; [|apply IH]. simpl. lia.
  - destruct (handleSyncError E item err st1) as [[[]|fatal] st2].
    + etransitivity; [|apply IH]. simpl. lia.
    + simpl. lia.
Qed.

(** The loop over a snapshot of which no intent fails. *)
Lemma sync_loop_clean items :
  forall v st v' st',
    sync_loop E items v st = ((v', None), st') ->
    errorCount v' = errorCount v ->
    (forall r, r ∈ sync_queue (db st') ->
       r ∈ sync_queue (db st) /\ (id r ∉ id <$> items))
    /\ (forall t', t' ∈ tasks (db st') ->
          exists t, t ∈ tasks (db st) /\ Task.id t' = Task.id t
            /\ (Task.id t ∈ task_id <$> items \/ Task.sync_status t = synced ->
                Task.sync_status t' = synced)).
Proof.
  induction items as [|item rest IH]; intros v st v' st' Hloop Hcount.
  - simpl in Hloop. simplify_eq. split.
    + intros r Hr. split; [done|]. by intros ?%elem_of_nil.
    + intros t' Ht'. exists t'. split_and!; [done..|].
      by intros [?%elem_of_nil|?].
  - simpl in Hloop.
    destruct (processSyncItem E item st) as [[[]|err] st1] eqn:Hitem.
    + apply processSyncItem_Resolve in Hitem as [Htasks Hqueue].
      apply IH in Hloop as [Hq Ht]; [|done]. split.
      * intros r Hr. destruct (Hq r Hr) as [Hin Hrest].
        rewrite Hqueue in Hin. apply list_elem_of_filter in Hin as [Hid Hin].
        split; [done|]. rewrite fmap_cons. intros [?|?]%elem_of_cons; done.
      * intros t' Ht'. destruct (Ht t' Ht') as (t1 & Hin1 & Hid1 & Hs1).
        rewrite Htasks in Hin1.
        apply elem_of_update_where in Hin1 as (t & Hin & ->).
        exists t. case_decide as Hdec; simpl in *.
        -- split_and!; [done..|]. intros _. apply Hs1. by right.
        -- split_and!; [done..|].
           intros [[?|?]%elem_of_cons|?]; [done|apply Hs1; by left
                                            |apply Hs1; by right].
    + exfalso.
      destruct (handleSyncError E item err st1) as [[[]|fatal] st2];
        [|done].
      pose proof (sync_loop_errorCount rest
                    {| successCount := successCount v;
                       errorCount := errorCount v + 1;
                       details_ := <[id item := DetailError (task_id item)
                                                  (message err)]>
                                     (details_ v) |} st2) as Hmono.
      simpl in Hloop. rewrite Hloop in Hmono. simpl in Hmono. lia.
Qed.

(** X16.  What [success = true] means.  When a pass reports success, no
    intent is left to be processed (a second pass would find nothing
    pending), every intent of the snapshot is gone from the queue, and
    every record with an intent in the snapshot has the status [synced].
    This holds whatever the remote API and the storage do. *)
Theorem sync_success_leaves_nothing_pending st :
  success (fst (sync E st)) = true ->
  sql_select_pending maxRetries (db (snd (sync E st))) = []
  /\ (forall item, item ∈ sql_select_pending maxRetries (db st) ->
        id item ∉ id <$> sync_queue (db (snd (sync E st))))
  /\ (forall item t, item ∈ sql_select_pending maxRetries (db st) ->
        t ∈ tasks (db (snd (sync E st))) -> Task.id t = task_id item ->
        Task.sync_status t = synced).
Proof.
  unfold sync, db_all, db_statement, sync_failed.
  destruct (db_fault E (db_calls st)); simpl; [done|].
  case_decide as Hempty; simpl.
  { intros _. apply nil_length_inv in Hempty. rewrite Hempty.
    split_and!; [done|by intros ? ?%elem_of_nil|by intros ? ? ?%elem_of_nil]. }
  match goal with |- context [sync_loop E ?items ?v ?s0] =>
    pose proof (sync_loop_clean items v s0) as Hclean;
    destruct (sync_loop E items v s0) as [[v' [fatal|]] s'] end;
    simpl; [done|].
  intros Hok%bool_decide_eq_true.
  destruct (Hclean v' s' eq_refl) as [Hq Ht]; [by rewrite Hok|].
  simpl in Hq, Ht. split_and!.
  - apply elem_of_nil_inv. intros r [Hr Hlt]%elem_of_select_pending.
    destruct (Hq r Hr) as [Hin Hnot]. apply Hnot, list_elem_of_fmap.
    exists r. split; [done|]. apply elem_of_select_pending. done.
  - intros item Hitem (r & Hid & Hr)%list_elem_of_fmap.
    destruct (Hq r Hr) as [_ Hnot]. apply Hnot. rewrite <- Hid.
    apply list_elem_of_fmap. by exists item.
  - intros item t Hitem Hin Hid.
    destruct (Ht t Hin) as (t0 & _ & Hid0 & Hs). apply Hs. left.
    rewrite <- Hid0, Hid. apply list_elem_of_fmap. by exists item.
Qed.

End PassOutcome.

(** ** Listing by status, and the retry route *)

Lemma elem_of_limit_offset {A} (limit offset : Z) (rows : list A) x :
  x ∈ limit_offset limit offset rows -> x ∈ rows.
Proof.
  unfold limit_offset. intros Hx.
  case_decide; [|apply subseteq_take in Hx]; by apply subseteq_drop in Hx.
Qed.

Section Status.

Variable E : Env.

(** X17.  What the status filter of [getSyncQueue] selects on a queue the
    engine has written (every intent carries an error message exactly when
    its [retry_count] is positive).  With the storage available, every
    intent listed under [status=failed] has failed at least once, so the
    intents that failed once or twice and are still retried are listed
    there too; every intent listed under any other non-empty status has
    never failed since it was enqueued or reset.  Without limit and offset
    the listing holds exactly those intents. *)
Theorem getSyncQueue_status_reads_error_message options st :
  db_fault E (db_calls st) = None ->
  Forall well_formed (sync_queue (db st)) ->
  exists l,
    fst (getSyncQueue E options st) = Resolve l
    /\ (forall r, r ∈ l -> r ∈ sync_queue (db st))
    /\ (status options = Some "failed" ->
        (forall r, r ∈ l -> (1 <= retry_count r)%Z)
        /\ ((offset options <= 0)%Z -> (limit options < 0)%Z ->
            l ≡ₚ filter (fun r => (1 <= retry_count r)%Z)
                   (sync_queue (db st))))
    /\ (forall s, status options = Some s -> s <> "" -> s <> "failed" ->
        (forall r, r ∈ l -> retry_count r = 0%Z)
        /\ ((offset options <= 0)%Z -> (limit options < 0)%Z ->
            l ≡ₚ filter (fun r => retry_count r = 0%Z)
                   (sync_queue (db st)))).
Proof.
  intros Hok Hwf. rewrite Forall_forall in Hwf.
  unfold getSyncQueue, try_catch.
  destruct (db_all_fetch E
              (sql_select_sync_queue (status options) (limit options)
                 (offset options)) st Hok) as (st' & -> & _).
  eexists. split; [done|].
  assert (forall r,
            r ∈ sql_select_sync_queue (status options) (limit options)
                  (offset options) (db st) ->
            r ∈ sync_queue (db st) /\ status_clause (status options) r)
    as Hin.
  { intros r Hr%elem_of_limit_offset.
    rewrite merge_sort_Permutation in Hr.
    apply list_elem_of_filter in Hr. tauto. }
  split_and!.
  - intros r Hr. by apply Hin.
  - intros Hstatus. split.
    + intros r [Hr Hc]%Hin. rewrite Hstatus in Hc. simpl in Hc.
      apply bool_decide_unpack in Hc. destruct (Hwf r Hr) as [Hpos Hiff].
      destruct (decide (retry_count r = 0%Z)) as [H0|H0]; [|lia].
      by apply Hiff in H0.
    + intros Hoff Hlim. unfold sql_select_sync_queue.
      rewrite limit_offset_all by (done || by left).
      rewrite merge_sort_Permutation, Hstatus.
      erewrite filter_ext_in; [done|]. intros r Hr. simpl.
      rewrite bool_decide_spec. destruct (Hwf r Hr) as [Hpos Hiff].
      split; [intros He|intros Hge ?%Hiff; lia].
      destruct (decide (retry_count r = 0%Z)) as [H0|H0]; [|lia].
      by apply Hiff in H0.
  - intros s Hstatus Hs Hf. split.
    + intros r [Hr Hc]%Hin. rewrite Hstatus in Hc. simpl in Hc.
      rewrite !decide_False in Hc by done.
      apply bool_decide_unpack in Hc. by apply (Hwf r Hr).
    + intros Hoff Hlim. unfold sql_select_sync_queue.
      rewrite limit_offset_all by (done || by left).
      rewrite merge_sort_Permutation, Hstatus.
      erewrite filter_ext_in; [done|]. intros r Hr. simpl.
      rewrite !decide_False by done.
      rewrite bool_decide_spec. by apply (Hwf r Hr).
Qed.

(** X18.  [POST /retry] with a body of the expected shape never answers
    500.  It answers 400, changing nothing, exactly when [all] is falsy
    and [ids] is no array; [all] wins over [ids]; an empty array of ids
    is answered with zero retried and zero failed, changing nothing.  A
    failure of the storage is not reported as one: the answer is the
    success answer with zero retried, and no table is changed. *)
Theorem retry_route_never_reports_failure body st :
  (forall code text,
     fst (createSyncRouter_retry E body st) = retry_rejected code text ->
     code = 400%Z /\ body_all body = false /\ body_ids body = None
     /\ snd (createSyncRouter_retry E body st) = st)
  /\ (body_all body = false -> body_ids body = None ->
      fst (createSyncRouter_retry E body st)
      = retry_rejected 400 "Either provide an array of ids or set all=true")
  /\ (body_all body = true ->
      db (snd (createSyncRouter_retry E body st))
      = db (snd (retryAllFailed E st)))
  /\ (body_all body = false -> body_ids body = Some [] ->
      fst (createSyncRouter_retry E body st)
      = retry_done 0 0 "Retried 0 items, 0 failed"
      /\ db (snd (createSyncRouter_retry E body st)) = db st)
  /\ (forall msg, db_fault E (db_calls st) = Some msg ->
      db (snd (createSyncRouter_retry E body st)) = db st
      /\ (body_all body = true ->
          fst (createSyncRouter_retry E body st)
          = retry_done 0 0 "Retried 0 items, 0 failed")).
Proof.
  unfold createSyncRouter_retry, retryAllFailed, retryFailed, try_catch,
    bind, ret, console_error, db_run, db_statement, set_db.
  destruct body as [[ids|] [|]]; simpl; split_and!; try done;
    try match goal with
        | |- forall msg, db_fault _ _ = Some msg -> _ =>
            intros msg Hf; rewrite ?Hf; simpl
        end;
    repeat (case_match; simplify_eq/=; try done);
    try (split; [done|intros _; by vm_compute]);
    try (by intros ? ? [= <- <-]); try (by intros _ [= ->]).
Qed.

End Status.

(** ** The further properties on runs of the concrete environment *)

(** X2, on a run: a payload that is a number is handed to axios as it
    is; axios refuses it, the processing fails with the error of
    [makeApiCall], and the tables are as they were. *)
Lemma processSyncItem_payload_witness :
  let item := Example.intent "q9" "t9" "update" (JNumber 7)
                "2024-05-01T09:00:09.000Z" 0 None in
  let st := Example.state [Example.task "t9" "Buy milk" pending] [item] in
  operation item <> "fail"
  /\ requests (snd (processSyncItem Demo.env item st))
     = [PUT "http://localhost:3000/api/tasks/t9" (JNumber 7)]
  /\ fst (processSyncItem Demo.env item st)
     = Reject (Error_ ("API Error: " +:+ message Demo.refused))
  /\ db (snd (processSyncItem Demo.env item st)) = db st.
Proof.
  intros item st. split; [discriminate|].
  destruct (processSyncItem_payload Demo.env item st)
    as [_ Hcalled]; [discriminate|].
  destruct Hcalled as [_ Hcalled]; [vm_compute; reflexivity|].
  destruct (Hcalled (JNumber 7)
              (PUT "http://localhost:3000/api/tasks/t9" (JNumber 7)))
    as [Hreq Hrejected].
  - right. split; [vm_compute; discriminate|].
    split; [vm_compute; reflexivity|exact I].
  - vm_compute. reflexivity.
  - split; [exact Hreq|].
    destruct (Hrejected Demo.refused eq_refl) as [Hfail Hdb].
    split; [exact Hfail|exact Hdb].
Defined.

(** X3, on a run: of three intents, two are pending and one is
    exhausted. *)
Lemma sync_counts_partition_witness :
  let st := Example.state []
              [Example.failing; Example.accepted; Example.worn_out] in
  db_fault Demo.env (db_calls st) = None
  /\ fst (getPendingSyncCount Demo.env st) = Resolve 2%Z
  /\ fst (getFailedSyncCount Demo.env st) = Resolve 1%Z
  /\ fst (getTotalSyncItems Demo.env st) = Resolve 3%Z.
Proof.
  intros st. split; [reflexivity|].
  destruct (sync_counts_partition Demo.env st eq_refl)
    as (p & f & t & Hp & Hf & Ht & Hsum & Htotal & Hpending & _).
  rewrite Hp, Hf, Ht.
  assert (t = 3%Z) as -> by (rewrite Htotal; vm_compute; reflexivity).
  assert (p = 2%Z) as -> by (rewrite Hpending; vm_compute; reflexivity).
  assert (f = 1%Z) as -> by lia.
  repeat split.
Defined.

(** X4, on a run: with the database closed the counts are zero and
    [retryFailed] reports the id it was given as failed. *)
Lemma admin_calls_swallow_storage_failure_witness :
  let st := Example.state [] [Example.worn_out] in
  let options := {| limit := 50; offset := 0; status := None |} in
  db_fault Demo.env_down (db_calls st)
  = Some "SQLITE_CANTOPEN: unable to open database file"
  /\ fst (getPendingSyncCount Demo.env_down st) = Resolve 0%Z
  /\ fst (getSyncQueue Demo.env_down options st) = Resolve []
  /\ fst (retryFailed Demo.env_down ["q5"] st)
     = Resolve {| retried := 0; failed := 1 |}
  /\ db (snd (clearSyncQueue Demo.env_down st)) = db st.
Proof.
  intros st options. split; [reflexivity|].
  destruct (admin_calls_swallow_storage_failure Demo.env_down st options
              ["q5"]) as [_ Hdown].
  destruct (Hdown _ eq_refl)
    as (Hp & _ & _ & _ & Hq & _ & Hr & _ & _ & _ & _ & _ & _ & _ & _ & Hc).
  split; [exact Hp|]. split; [exact Hq|]. split; [|exact Hc].
  apply Hr. discriminate.
Defined.

(** X5, on a run: the purge removes a pending and an exhausted intent. *)
Lemma clearSyncQueue_empties_queue_witness :
  let st := Example.state [Example.task "t1" "Pay rent" pending]
              [Example.failing; Example.worn_out] in
  db_fault Demo.env (db_calls st) = None
  /\ fst (clearSyncQueue Demo.env st) = Resolve 2%Z
  /\ sync_queue (db (snd (clearSyncQueue Demo.env st))) = [].
Proof.
  intros st. split; [reflexivity|].
  destruct (clearSyncQueue_empties_queue Demo.env st eq_refl)
    as (Hn & Hq & _).
  split; [exact Hn|exact Hq].
Defined.

(** X6, on a run: after the reset of an exhausted intent a second reset
    finds nothing. *)
Lemma retryAllFailed_leaves_none_exhausted_witness :
  let st := Example.state [] [Example.failing; Example.worn_out] in
  let st1 := snd (retryAllFailed Demo.env st) in
  db_fault Demo.env (db_calls st) = None
  /\ db_fault Demo.env (S (db_calls st)) = None
  /\ Forall (fun r => ~ exhausted r) (sync_queue (db st1))
  /\ fst (retryAllFailed Demo.env st1)
     = Resolve {| retried := 0; failed := 0 |}.
Proof.
  intros st st1. split; [reflexivity|]. split; [reflexivity|].
  pose proof (retryAllFailed_leaves_none_exhausted Demo.env st eq_refl
                eq_refl) as Hreset.
  cbv zeta in Hreset. destruct Hreset as (Hnone & _ & _ & Hagain & _).
  split; [exact Hnone|exact Hagain].
Defined.

(** X7, on a run: of two stamped records the later stamp is answered. *)
Lemma getLastSyncTime_is_latest_witness :
  let first := set_task_synced synced "2024-05-01T10:00:07.000Z"
                 (Example.task "t1" "Pay rent" pending) in
  let second := set_task_synced synced "2024-05-01T10:00:09.000Z"
                  (Example.task "t2" "Buy milk" pending) in
  let st := Example.state [first; second] [] in
  db_fault Demo.env (db_calls st) = None
  /\ exists t,
       fst (getLastSyncTime Demo.env st) = Resolve (Some t)
       /\ String.le "2024-05-01T10:00:09.000Z" t.
Proof.
  intros first second st. split; [reflexivity|].
  destruct (getLastSyncTime_is_latest Demo.env st eq_refl)
    as (Hlatest & Hsome & _).
  destruct Hsome as [t Ht].
  { exists second, "2024-05-01T10:00:09.000Z".
    split; [right; left|]. split; [reflexivity|discriminate]. }
  exists t. split; [exact Ht|].
  destruct (Hlatest t Ht) as (_ & _ & Hmax).
  apply (Hmax second); [right; left|reflexivity].
Defined.

(** X8, on a run: a record nobody created is answered with 404. *)
Lemma missing_task_is_left_alone_witness :
  let st := Example.state [Example.task "t1" "Pay rent" pending] [] in
  let updates := {| p_title := Some "Pay the rent"; p_description := None;
                    p_completed := None |} in
  db_fault Demo.env (db_calls st) = None
  /\ sql_select_task "t9" (db st) = []
  /\ fst (createTaskRouter_put Demo.env "t9" updates st)
     = reply_error 404 "Task not found"
  /\ db (snd (deleteTask Demo.env "t9" st)) = db st.
Proof.
  intros st updates. split; [reflexivity|].
  split; [vm_compute; reflexivity|].
  destruct (missing_task_is_left_alone Demo.env "t9" updates st eq_refl)
    as (_ & _ & _ & _ & Hdb & _ & Hput & _); [vm_compute; reflexivity|].
  split; [exact Hput|exact Hdb].
Defined.

(** X9, on a run: a deleted record is no longer read. *)
Lemma deleteTask_hides_record_witness :
  let existing := Example.task "t1" "Pay rent" synced in
  let st := Example.state [existing] [] in
  storage_ok Demo.env
  /\ head (sql_select_task "t1" (db st)) = Some existing
  /\ fst (deleteTask Demo.env "t1" st) = Resolve true
  /\ fst (getTask Demo.env "t1" (snd (deleteTask Demo.env "t1" st)))
     = Resolve None.
Proof.
  intros existing st. split; [exact Demo_storage_ok|].
  split; [vm_compute; reflexivity|].
  pose proof (deleteTask_hides_record Demo.env "t1" st existing
                Demo_storage_ok) as Hdel.
  cbv zeta in Hdel. destruct Hdel as (Htrue & Hnone & _).
  - vm_compute. reflexivity.
  - split; [exact Htrue|exact Hnone].
Defined.

(** X10, on a run: the first record of an empty store is read back. *)
Lemma createTask_then_getTask_witness :
  let taskData := {| p_title := Some "Buy milk"; p_description := None;
                     p_completed := None |} in
  storage_ok Demo.env
  /\ (uuidv4 Demo.env (uuids Demo.empty)
      ∉ Task.id <$> tasks (db Demo.empty))
  /\ exists task st',
       createTask Demo.env taskData Demo.empty = (Resolve task, st')
       /\ fst (getTask Demo.env (Task.id task) st') = Resolve (Some task).
Proof.
  intros taskData.
  assert (uuidv4 Demo.env (uuids Demo.empty)
          ∉ Task.id <$> tasks (db Demo.empty)) as Hfresh.
  { simpl. intros Hin. inversion Hin. }
  split; [exact Demo_storage_ok|]. split; [exact Hfresh|].
  destruct (createTask_then_getTask Demo.env taskData Demo.empty
              Demo_storage_ok Hfresh) as (task & st' & Hc & Hg & _).
  exists task, st'. split; [exact Hc|exact Hg].
Defined.

(** X11, on a run: the insertion of the record is executed, the insertion
    of its intent fails; the record is stored without an intent. *)
Lemma mutation_without_intent_on_storage_failure_witness :
  let taskData := {| p_title := Some "Buy milk"; p_description := None;
                     p_completed := None |} in
  let st' := snd (createTask (Outage.env_at 1) taskData Demo.empty) in
  db_fault (Outage.env_at 1) (db_calls Demo.empty) = None
  /\ db_fault (Outage.env_at 1) (S (db_calls Demo.empty))
     = Some "SQLITE_FULL: database or disk is full"
  /\ fst (createTask (Outage.env_at 1) taskData Demo.empty)
     = Reject (Error_ "SQLITE_FULL: database or disk is full")
  /\ length (tasks (db st')) = 1
  /\ sync_queue (db st') = [].
Proof.
  intros taskData st'. split; [reflexivity|]. split; [reflexivity|].
  destruct (mutation_without_intent_on_storage_failure (Outage.env_at 1)
              Demo.empty "SQLITE_FULL: database or disk is full")
    as [Hcreate _].
  pose proof (Hcreate taskData eq_refl eq_refl) as Hrun.
  cbv zeta in Hrun. destruct Hrun as (Hreject & Hlen & Hqueue & _).
  split; [exact Hreject|]. split; [exact Hlen|exact Hqueue].
Defined.

(** X12, on a run: the route stores an empty title. *)
Lemma put_route_takes_any_title_witness :
  let existing := Example.task "t1" "Pay rent" synced in
  let st := Example.state [existing] [] in
  let body := {| p_title := Some ""; p_description := None;
                 p_completed := None |} in
  storage_ok Demo.env
  /\ head (sql_select_task "t1" (db st)) = Some existing
  /\ exists updated,
       fst (createTaskRouter_put Demo.env "t1" body st)
       = reply_task 200 updated
       /\ Task.title updated = ""
       /\ Task.sync_status updated = pending.
Proof.
  intros existing st body. split; [exact Demo_storage_ok|].
  split; [vm_compute; reflexivity|].
  destruct (put_route_takes_any_title Demo.env "t1" body st existing
              Demo_storage_ok) as (updated & Hput & Htitle & Hstatus & _);
    [vm_compute; reflexivity|].
  exists updated. split; [exact Hput|]. split; [exact Htitle|exact Hstatus].
Defined.

(** X14, on a run: a queue with an intent that failed twice and a fresh
    one is well formed, and still is after a pass. *)
Lemma queue_stays_well_formed_witness :
  let st := Example.state
              [Example.task "t1" "Pay rent" pending;
               Example.task "t2" "Buy milk" pending]
              [Example.failing; Example.accepted] in
  Forall well_formed (sync_queue (db st))
  /\ Forall well_formed (sync_queue (db (snd (sync Demo.env st)))).
Proof.
  intros st.
  assert (Forall well_formed (sync_queue (db st))) as Hwf.
  { repeat constructor; try discriminate; simpl; intros H; discriminate H. }
  split; [exact Hwf|].
  destruct (queue_stays_well_formed Demo.env st Hwf) as (_ & Hpass & _).
  exact Hpass.
Defined.

(** X16, on a run: a pass over one accepted creation reports success and
    leaves nothing pending. *)
Lemma sync_success_leaves_nothing_pending_witness :
  let st := Example.state [Example.task "t2" "Buy milk" pending]
              [Example.accepted] in
  success (fst (sync Demo.env st)) = true
  /\ sql_select_pending maxRetries (db (snd (sync Demo.env st))) = [].
Proof.
  intros st.
  assert (success (fst (sync Demo.env st)) = true) as Hok
    by (vm_compute; reflexivity).
  split; [exact Hok|].
  destruct (sync_success_leaves_nothing_pending Demo.env st Hok)
    as (Hnone & _).
  exact Hnone.
Defined.

(** X17, on a run: an intent that failed once and one that failed twice,
    both still retried, are what [status=failed] lists. *)
Lemma getSyncQueue_status_reads_error_message_witness :
  let st := Example.state []
              [Example.failing; Example.accepted; Example.failed_once] in
  let options := {| limit := -1; offset := 0; status := Some "failed" |} in
  db_fault Demo.env (db_calls st) = None
  /\ Forall well_formed (sync_queue (db st))
  /\ exists l,
       fst (getSyncQueue Demo.env options st) = Resolve l
       /\ l ≡ₚ [Example.failing; Example.failed_once].
Proof.
  intros st options.
  assert (Forall well_formed (sync_queue (db st))) as Hwf.
  { repeat constructor; try discriminate; simpl; intros H; discriminate H. }
  split; [reflexivity|]. split; [exact Hwf|].
  destruct (getSyncQueue_status_reads_error_message Demo.env options st
              eq_refl Hwf) as (l & Hl & _ & Hfailed & _).
  exists l. split; [exact Hl|].
  destruct (Hfailed eq_refl) as [_ Hall].
  rewrite Hall; [reflexivity|discriminate|reflexivity].
Defined.

(** X18, on a run: with the database closed, [POST /retry] with
    [all = true] answers as if nothing had to be retried. *)
Lemma retry_route_never_reports_failure_witness :
  let st := Example.state [] [Example.worn_out] in
  let body := {| body_ids := None; body_all := true |} in
  db_fault Demo.env_down (db_calls st)
  = Some "SQLITE_CANTOPEN: unable to open database file"
  /\ fst (createSyncRouter_retry Demo.env_down body st)
     = retry_done 0 0 "Retried 0 items, 0 failed"
  /\ db (snd (createSyncRouter_retry Demo.env_down body st)) = db st.
Proof.
  intros st body. split; [reflexivity|].
  destruct (retry_route_never_reports_failure Demo.env_down body st)
    as (_ & _ & _ & _ & Hdown).
  destruct (Hdown _ eq_refl) as [Hdb Hanswer].
  split; [exact (Hanswer eq_refl)|exact Hdb].
Defined.
